(** * gbiz_bulk_collector: a shallow embedding and its verified properties

    The program enumerates corporate numbers per prefecture (dump), fetches
    the basic record of each number (hydrate) and chains both (pipeline).
    Both stages append to CSV files and can resume from what the files hold.

    Modelling conventions.
    - Python [str] is [string]; a character is an 8-bit code point.
    - Python [int] is [Z].
    - Values decoded from JSON are the inductive [json]; Python [None] is
      [JNull].
    - A CSV file is the list of its records, a record being the list of its
      cells; the [csv] module's quoting is taken to round-trip records, and
      every file is taken to end with a line terminator, as every file the
      program writes does.  What is said about reading a file back after an
      append is therefore said of files the program has written itself.
    - The file system is a finite map from paths to CSV files; two paths
      name two files.
    - The network is a function from the history of requests and the
      current request to the last answer the service gives to the call;
      each call of [session.get] is one request.  The retries of the
      mounted adapter happen inside the call; what the adapter does with an
      answer that is still to be retried when the retries are used up
      depends on its [raise_on_status], and is modelled.
    - The command line is given as what [argparse] makes of it: rejected,
      a request for help, or the parsed arguments.
    - Exceptions are values of [exn]; a computation that may raise returns
      its state together with an outcome.
    - Sleeping and console output do not influence files or requests and are
      left out. *)

From Stdlib Require Import ZArith Ascii String List Bool Lia QArith_base.
From stdpp Require Import base gmap sets list strings pretty.

Local Open Scope string_scope.
Local Open Scope Z_scope.
Local Open Scope list_scope.

(** ** Strings *)

(** [str.isspace] on code points below 256. *)
Definition is_space (a : ascii) : bool :=
  let n := nat_of_ascii a in
  ((9 <=? n)%nat && (n <=? 13)%nat)
  || ((28 <=? n)%nat && (n <=? 32)%nat)
  || (n =? 133)%nat || (n =? 160)%nat.

Fixpoint lstrip (s : string) : string :=
  match s with
  | EmptyString => EmptyString
  | String a s' => if is_space a then lstrip s' else s
  end.

Fixpoint rstrip (s : string) : string :=
  match s with
  | EmptyString => EmptyString
  | String a s' =>
      match rstrip s' with
      | EmptyString => if is_space a then EmptyString else String a EmptyString
      | r => String a r
      end
  end.

(** [s.strip()] *)
Definition strip (s : string) : string := rstrip (lstrip s).

(** [not s] for a string. *)
Definition str_empty (s : string) : bool :=
  match s with EmptyString => true | _ => false end.

(** ** JSON values, which are also the Python values the program handles *)

#[local] Unset Elimination Schemes.
Inductive json : Type :=
| JNull
| JBool (b : bool)
| JNum (n : Z)
| JStr (s : string)
| JArr (l : list json)
| JObj (kv : list (string * json)).
#[local] Set Elimination Schemes.

(** Python truthiness. *)
Definition truthy (v : json) : bool :=
  match v with
  | JNull => false
  | JBool b => b
  | JNum n => negb (Z.eqb n 0)
  | JStr s => negb (str_empty s)
  | JArr l => match l with [] => false | _ => true end
  | JObj kv => match kv with [] => false | _ => true end
  end.

(** [a or b] *)
Definition py_or (a b : json) : json := if truthy a then a else b.

(** Lookup in a dict held as an association list. *)
Fixpoint assoc (k : string) (kv : list (string * json)) : option json :=
  match kv with
  | [] => None
  | (k', v) :: rest => if String.eqb k k' then Some v else assoc k rest
  end.

(** ** Exceptions and outcomes *)

Inductive exn : Type :=
| RuntimeError (msg : string)
| Timeout
| ConnectionError (msg : string)
| RequestException
| RetryError
| JSONDecodeError
| AttributeError
| TypeError
| KeyError.

Inductive result (A : Type) : Type :=
| Ok (a : A)
| Raise (e : exn).
Arguments Ok {A} a.
Arguments Raise {A} e.

(** [d.get(k)]: only a dict has [get]. *)
Definition py_get (d : json) (k : string) : result json :=
  match d with
  | JObj kv => Ok (default JNull (assoc k kv))
  | _ => Raise AttributeError
  end.

(** ** The network *)

(** A request carries the token header and either the query parameters of
    the list endpoint or the number in the path of the detail endpoint. *)
Inductive Request : Type :=
| ListReq (tok corporate_type prefecture : string) (limit page : Z)
          (exist_flg : option string)
| DetailReq (tok corporate_number : string).

Inductive Transport : Type :=
| Response (status_code : Z) (text : string) (body : option json)
| Failure (e : exn).

(** The requests issued so far, newest first. *)
Definition World : Type := list Request.

(** What the program cannot see into: the remote service, and Python's
    [str()] on values other than [None] and strings. *)
Class Environment : Type := {
  server : World -> Request -> Transport;
  py_str : json -> string;
}.

(** ** CSV files and the file system *)

Definition csv : Type := list (list string).

Definition TIMEOUT : Z := 60.

Definition BASIC_FIELDS : list string :=
  [ "corporate_number"; "name"; "date_of_establishment"; "employee_number";
    "capital_stock"; "prefecture_code"; "city_code"; "postal_code";
    "location"; "company_url"; "business_summary" ].

Definition LIST_FIELDS : list string := [ "corporate_number"; "name" ].

(** [csv.DictReader]: the value a row has under key [k].  The pairs of
    [zip(fieldnames, row)] are entered in order, so the last one wins; the
    field names beyond the row's length are then set to [None]. *)
Fixpoint zip_last (k : string) (names row : list string) (acc : option string)
  : option string :=
  match names, row with
  | n :: names', c :: row' =>
      zip_last k names' row' (if String.eqb k n then Some c else acc)
  | _, _ => acc
  end.

Definition dictreader_get (names row : list string) (k : string)
  : option string :=
  if existsb (String.eqb k) (drop (length row) names) then None
  else zip_last k names row None.

(** The rows a [DictReader] yields: the first record is the header, empty
    records are skipped. *)
Definition nonblank (row : list string) : bool :=
  match row with [] => false | _ => true end.

Definition dictreader_rows (c : csv) : list (list string * list string) :=
  match c with
  | [] => []
  | names :: recs => map (fun r => (names, r)) (List.filter nonblank recs)
  end.

(** [(row.get("corporate_number") or "").strip()] for a reader row. *)
Definition row_cno (nr : list string * list string) : string :=
  strip (default "" (dictreader_get nr.1 nr.2 "corporate_number")).

(** ** The program *)

Section Program.
Context `{Environment}.

(** One request, logged, and the service's answer to it. *)
Definition send (w : World) (r : Request) : World * Transport :=
  (r :: w, server w r).

(** [status_forcelist] of both retry policies. *)
Definition status_forcelist : list Z := [429; 500; 502; 503; 504].

Definition retried (status_code : Z) : bool :=
  existsb (Z.eqb status_code) status_forcelist.

(** One call of [session.get] through the mounted adapter.  An answer whose
    status is in the force list once the retries are used up is raised as
    [RetryError] when the policy has [raise_on_status] (the default, which
    [_get_json] keeps) and handed back when it has not ([_make_session]). *)
Definition session_get (raise_on_status : bool) (w : World) (r : Request)
  : World * Transport :=
  let '(w', t) := send w r in
  (w',
   match t with
   | Response status_code _ _ =>
       if raise_on_status && retried status_code then Failure RetryError else t
   | Failure _ => t
   end).

Definition http_error (status_code : Z) (text : string) : exn :=
  RuntimeError ("HTTP " +:+ pretty status_code +:+ ": " +:+ substring 0 300 text).

Definition _get_json (w : World) (req : Request) : World * result json :=
  let '(w', t) := session_get true w req in
  (w',
   match t with
   | Response status_code text body =>
       if Z.eqb status_code 204 then Ok (JObj [("hojin-infos", JArr [])])
       else if negb (Z.eqb status_code 200) then Raise (http_error status_code text)
       else match body with
            | Some js => Ok js
            | None => Raise JSONDecodeError
            end
   | Failure Timeout =>
       Raise (RuntimeError ("Request timeout after " +:+ pretty TIMEOUT +:+ " seconds"))
   | Failure (ConnectionError m) => Raise (RuntimeError ("Connection error: " +:+ m))
   | Failure e => Raise e
   end).

(** *** step 1: the list of corporations *)

(** The generator is written as a fold over what it yields: [body] is the
    body of the consumer's [for] loop and may raise, which ends the
    generator where it stands. *)
Section Generator.
Context {S : Type} (body : S -> json -> S * option exn).

Fixpoint yield_items (items : list json) (s : S) : S * option exn :=
  match items with
  | [] => (s, None)
  | it :: rest =>
      match py_get it "corporate_number", py_get it "name" with
      | Ok c, Ok n =>
          let '(s', r) := body s (JObj [("corporate_number", c); ("name", n)]) in
          match r with
          | Some e => (s', Some e)
          | None => yield_items rest s'
          end
      | _, _ => (s, Some AttributeError)
      end
  end.

(** [exist_flg in ("true", "false")] *)
Definition exist_flg_param (exist_flg : option string) : option string :=
  match exist_flg with
  | Some f => if String.eqb f "true" || String.eqb f "false" then Some f else None
  | None => None
  end.

Fixpoint iter_pages (tok pref_code corporate_type : string) (limit : Z)
    (exist_flg : option string) (pages : list Z) (w : World) (s : S)
  : World * S * option exn :=
  match pages with
  | [] => (w, s, None)
  | page :: rest =>
      let params :=
        ListReq tok corporate_type pref_code limit page (exist_flg_param exist_flg) in
      let '(w1, r) := _get_json w params in
      match r with
      | Raise e => (w1, s, Some e)
      | Ok js =>
          match py_get js "hojin-infos" with
          | Raise e => (w1, s, Some e)
          | Ok v =>
              let items := py_or v (JArr []) in
              if negb (truthy items) then (w1, s, None)
              else
                match items with
                | JArr l =>
                    let '(s1, r1) := yield_items l s in
                    match r1 with
                    | Some e => (w1, s1, Some e)
                    | None =>
                        if Z.ltb (Z.of_nat (length l)) limit then (w1, s1, None)
                        else iter_pages tok pref_code corporate_type limit
                               exist_flg rest w1 s1
                    end
                | JStr _ | JObj _ => (w1, s, Some AttributeError)
                | _ => (w1, s, Some TypeError)
                end
          end
      end
  end.

Definition iter_corporate_list (tok pref_code corporate_type : string)
    (limit : Z) (exist_flg : option string) (max_pages : Z) (w : World) (s : S)
  : World * S * option exn :=
  iter_pages tok pref_code corporate_type limit exist_flg (seqZ 1 max_pages) w s.

End Generator.

(** The sequence the generator yields when nothing interrupts it. *)
Definition collect_body (acc : list json) (row : json) : list json * option exn :=
  (acc ++ [row], None).

(** *** step 2: the basic record of one corporation *)

(** [arr[0]] for a truthy [arr]. *)
Definition py_index0 (arr : json) : result json :=
  match arr with
  | JArr (x :: _) => Ok x
  | JStr (String a _) => Ok (JStr (String a EmptyString))
  | JObj _ => Raise KeyError
  | _ => Raise TypeError
  end.

Definition fetch_basic (tok : string) (w : World) (corporate_number : string)
  : World * result json :=
  let '(w', r) := _get_json w (DetailReq tok (strip corporate_number)) in
  (w',
   match r with
   | Raise e => Raise e
   | Ok js =>
       match py_get js "hojin-infos" with
       | Raise e => Raise e
       | Ok v =>
           let arr := py_or v (JArr []) in
           if truthy arr then py_index0 arr else Ok JNull
       end
   end).

Definition fetch_basic_with_session (tok : string) (w : World)
    (corporate_number : string) : World * result json :=
  let '(w', t) := session_get false w (DetailReq tok (strip corporate_number)) in
  (w',
   match t with
   | Failure e => Raise e
   | Response status_code text body =>
       if Z.eqb status_code 200 then
         match body with
         | None => Raise JSONDecodeError
         | Some js =>
             match py_get js "hojin-infos" with
             | Raise e => Raise e
             | Ok v =>
                 let arr := py_or v (JArr []) in
                 if truthy arr then py_index0 arr else Ok JNull
             end
         end
       else if Z.eqb status_code 204 || Z.eqb status_code 404 then Ok JNull
       else Raise (http_error status_code text)
   end).

(** *** CSV helpers *)

Definition file_ids (f : option csv) : list string :=
  match f with
  | None => []
  | Some c =>
      List.filter (fun c => negb (str_empty c)) (map row_cno (dictreader_rows c))
  end.

Definition read_existing_numbers (fs : gmap string csv) (path : string)
  : gset string :=
  list_to_set (file_ids (fs !! path)).

Definition csv_cell (v : json) : string :=
  match v with
  | JNull => ""
  | JStr s => s
  | _ => py_str v
  end.

(** [{k: row.get(k, "") for k in header}] as the writer lays it out. *)
Definition csv_row (header : list string) (kv : list (string * json))
  : list string :=
  map (fun k => csv_cell (default (JStr "") (assoc k kv))) header.

(** [row.get] is called once for every entry of [header]: a row that is
    not a dict raises at the first entry, and goes through as an empty record
    when there is none. *)
Fixpoint write_rows (header : list string) (rows : list json)
  : csv * option exn :=
  match rows with
  | [] => ([], None)
  | row :: rest =>
      match row with
      | JObj kv =>
          let '(rs, e) := write_rows header rest in
          (csv_row header kv :: rs, e)
      | _ =>
          match header with
          | [] =>
              let '(rs, e) := write_rows header rest in
              ([] :: rs, e)
          | _ :: _ => ([], Some AttributeError)
          end
      end
  end.

(** Mode ["a"] writes behind what the file holds: the header, when the file
    is new, and the records follow its last record, which is taken to be
    terminated as every record of the writer is.  What was written when a
    row raises stays in the file. *)
Definition append_rows (path : string) (rows : list json) (header : list string)
    (fs : gmap string csv) : gmap string csv * option exn :=
  let newfile := negb (bool_decide (is_Some (fs !! path))) in
  let '(written, e) := write_rows header rows in
  (<[path := default [] (fs !! path)
             ++ (if newfile then [header] else []) ++ written]> fs, e).

(** *** Progress helpers *)

(** [int(x)] for a finite float, which is a rational: truncation towards
    zero. *)
Definition py_int (x : Q) : Z := Z.quot (Qnum x) (Z.pos (Qden x)).

(** [f"{n:02d}"] *)
Definition fmt_02d (n : Z) : string :=
  if Z.leb 0 n && Z.ltb n 10 then "0" +:+ pretty n else pretty n.

Definition _fmt_hms (seconds : Q) : string :=
  let seconds := py_int seconds in
  let h := seconds / 3600 in
  let rem := seconds mod 3600 in
  let m := rem / 60 in
  let s := rem mod 60 in
  pretty h +:+ ":" +:+ fmt_02d m +:+ ":" +:+ fmt_02d s.

(** *** Hydrate runner *)

Record HydrateState : Type := {
  h_fs : gmap string csv;
  h_world : World;
  h_processed : gset string;
  h_added : Z;
  h_errors : Z;
  h_done : Z;
}.

(** The body of the [for row in r] loop of [_run_hydrate]. *)
Definition hydrate_row (tok out : string) (st : HydrateState)
    (row : list string * list string) : HydrateState * option exn :=
  let cno := row_cno row in
  if str_empty cno || bool_decide (cno ∈ h_processed st) then (st, None)
  else
    let '(w', r) := fetch_basic_with_session tok (h_world st) cno in
    let '(d, errors) :=
      match r with
      | Ok d => (d, h_errors st)
      | Raise _ => (JNull, h_errors st + 1)
      end in
    match d with
    | JNull =>
        ({| h_fs := h_fs st; h_world := w'; h_processed := h_processed st;
            h_added := h_added st; h_errors := errors;
            h_done := h_done st + 1 |}, None)
    | _ =>
        let '(fs', e) := append_rows out [d] BASIC_FIELDS (h_fs st) in
        match e with
        | Some x =>
            ({| h_fs := fs'; h_world := w'; h_processed := h_processed st;
                h_added := h_added st; h_errors := errors;
                h_done := h_done st |}, Some x)
        | None =>
            ({| h_fs := fs'; h_world := w';
                h_processed := h_processed st ∪ {[cno]};
                h_added := h_added st + 1; h_errors := errors;
                h_done := h_done st + 1 |}, None)
        end
    end.

Fixpoint hydrate_loop (tok out : string)
    (rows : list (list string * list string)) (st : HydrateState)
  : HydrateState * option exn :=
  match rows with
  | [] => (st, None)
  | row :: rest =>
      let '(st', e) := hydrate_row tok out st row in
      match e with
      | Some x => (st', Some x)
      | None => hydrate_loop tok out rest st'
      end
  end.

(** The state before the first row: the processed set is read from the
    output file when the run resumes. *)
Definition hydrate_start (resume : bool) (out : string) (fs : gmap string csv)
    (w : World) : HydrateState :=
  {| h_fs := fs; h_world := w;
     h_processed := if resume then read_existing_numbers fs out else ∅;
     h_added := 0; h_errors := 0; h_done := 0 |}.

(** The rows of the input file are those it holds when it is opened: this
    is what the loop reads whenever the input is not the file the run
    appends to, and whenever the run appends nothing.  (A run whose input
    is its own output reads on into what it appends; the requests of such a
    run are not described here.) *)
Definition _run_hydrate (tok infile out : string) (resume : bool)
    (fs : gmap string csv) (w : World) : HydrateState * result Z :=
  let st0 := hydrate_start resume out fs w in
  match fs !! infile with
  | None => (st0, Ok 0)
  | Some c =>
      let '(st, e) := hydrate_loop tok out (dictreader_rows c) st0 in
      (st, match e with Some x => Raise x | None => Ok (h_added st) end)
  end.

(** *** Collection: the loop shared by [dump] and [pipeline] *)

Record CollectState : Type := {
  c_fs : gmap string csv;
  c_seen : gset string;
  c_new : Z;
}.

(** [(row.get("corporate_number") or "").strip()] for a yielded row. *)
Definition cno_of (row : json) : result string :=
  match py_get row "corporate_number" with
  | Raise e => Raise e
  | Ok v =>
      match py_or v (JStr "") with
      | JStr s => Ok (strip s)
      | _ => Raise AttributeError
      end
  end.

(** The body of [for row in iter_corporate_list(...)]. *)
Definition collect_row (dest : string) (st : CollectState) (row : json)
  : CollectState * option exn :=
  match cno_of row with
  | Raise e => (st, Some e)
  | Ok cno =>
      if str_empty cno || bool_decide (cno ∈ c_seen st) then (st, None)
      else
        let '(fs', e) := append_rows dest [row] LIST_FIELDS (c_fs st) in
        match e with
        | Some x => ({| c_fs := fs'; c_seen := c_seen st; c_new := c_new st |}, Some x)
        | None =>
            ({| c_fs := fs'; c_seen := c_seen st ∪ {[cno]};
                c_new := c_new st + 1 |}, None)
        end
  end.

(** [f"{i:02d}"] for [i] below 100. *)
Definition two_digits (i : nat) : string :=
  String (ascii_of_nat (48 + i / 10))
    (String (ascii_of_nat (48 + i mod 10)) EmptyString).

Definition targets (pref : string) : list string :=
  if String.eqb pref "all" then map two_digits (seq 1 47) else [pref].

(** [None if args.exist_flg == "any" else args.exist_flg] *)
Definition exist_flag_param (exist_flg : string) : option string :=
  if String.eqb exist_flg "any" then None else Some exist_flg.

Record DumpArgs : Type := {
  dump_out : string;
  dump_pref : string;
  dump_limit : Z;
  dump_resume : bool;
  dump_exist_flg : string;
  dump_corporate_type : string;
  dump_max_pages : Z;
}.

Record HydrateArgs : Type := {
  hydrate_infile : string;
  hydrate_out : string;
  hydrate_resume : bool;
}.

Record PipelineArgs : Type := {
  pipeline_pref : string;
  pipeline_list_out : string;
  pipeline_enrich_out : string;
  pipeline_exist_flg : string;
  pipeline_corporate_type : string;
  pipeline_limit : Z;
  pipeline_max_pages : Z;
  pipeline_resume : bool;
}.

Inductive Command : Type :=
| CmdDump (a : DumpArgs)
| CmdHydrate (a : HydrateArgs)
| CmdPipeline (a : PipelineArgs)
| CmdNone.

(** The page size and the ceiling each branch hands to the collector. *)
Definition dump_page_limit (a : DumpArgs) : Z := Z.min (Z.max 1 (dump_limit a)) 5000.
Definition dump_page_ceiling (a : DumpArgs) : Z := Z.min (Z.max 1 (dump_max_pages a)) 10.
Definition pipeline_page_limit (a : PipelineArgs) : Z := pipeline_limit a.
Definition pipeline_page_ceiling (a : PipelineArgs) : Z := pipeline_max_pages a.

(** [for pref in targets] of the dump branch: one [seen] for the whole run. *)
Fixpoint dump_loop (tok : string) (a : DumpArgs) (prefs : list string)
    (w : World) (st : CollectState) : World * CollectState * option exn :=
  match prefs with
  | [] => (w, st, None)
  | pref :: rest =>
      let '(w1, st1, e) :=
        iter_corporate_list (collect_row (dump_out a)) tok pref
          (dump_corporate_type a) (dump_page_limit a)
          (exist_flag_param (dump_exist_flg a)) (dump_page_ceiling a) w st in
      match e with
      | Some x => (w1, st1, Some x)
      | None => dump_loop tok a rest w1 st1
      end
  end.

Definition dump (tok : string) (a : DumpArgs) (fs : gmap string csv) (w : World)
  : gmap string csv * World * result Z :=
  let seen := if dump_resume a then read_existing_numbers fs (dump_out a) else ∅ in
  let '(w', st, e) :=
    dump_loop tok a (targets (dump_pref a)) w
      {| c_fs := fs; c_seen := seen; c_new := 0 |} in
  (c_fs st, w', match e with Some x => Raise x | None => Ok 0 end).

(** [for pref in targets] of the pipeline branch: [seen] is built anew for
    every prefecture. *)
Fixpoint pipeline_dump_loop (tok : string) (a : PipelineArgs)
    (prefs : list string) (w : World) (fs : gmap string csv)
  : World * gmap string csv * option exn :=
  match prefs with
  | [] => (w, fs, None)
  | pref :: rest =>
      let seen :=
        if pipeline_resume a then read_existing_numbers fs (pipeline_list_out a)
        else ∅ in
      let '(w1, st1, e) :=
        iter_corporate_list (collect_row (pipeline_list_out a)) tok pref
          (pipeline_corporate_type a) (pipeline_page_limit a)
          (exist_flag_param (pipeline_exist_flg a)) (pipeline_page_ceiling a) w
          {| c_fs := fs; c_seen := seen; c_new := 0 |} in
      match e with
      | Some x => (w1, c_fs st1, Some x)
      | None => pipeline_dump_loop tok a rest w1 (c_fs st1)
      end
  end.

Definition pipeline (tok : string) (a : PipelineArgs) (fs : gmap string csv)
    (w : World) : gmap string csv * World * result Z :=
  let '(w1, fs1, e) := pipeline_dump_loop tok a (targets (pipeline_pref a)) w fs in
  match e with
  | Some x => (fs1, w1, Raise x)
  | None =>
      let '(st, r) :=
        _run_hydrate tok (pipeline_list_out a) (pipeline_enrich_out a)
          (pipeline_resume a) fs1 w1 in
      (h_fs st, h_world st,
       match r with Ok _ => Ok 0 | Raise x => Raise x end)
  end.

(** [not tok] for the value of [os.getenv]. *)
Definition tok_missing (tok : option string) : bool :=
  match tok with
  | None => true
  | Some t => str_empty t
  end.

(** What [ap.parse_args()] makes of the command line: it leaves through
    [SystemExit(2)] when it rejects it, through [SystemExit(0)] after
    printing the help that [-h] asks for, and returns the arguments
    otherwise. *)
Inductive Argv : Type :=
| Rejected
| HelpAsked
| Accepted (cmd : Command).

(** How [main] ends: it returns a status, leaves through [SystemExit], or
    lets an exception through. *)
Inductive Ending : Type :=
| Returns (n : Z)
| Exits (code : Z)
| Raises (e : exn).

Definition ending (r : result Z) : Ending :=
  match r with
  | Ok n => Returns n
  | Raise e => Raises e
  end.

Definition main (tok : option string) (argv : Argv) (fs : gmap string csv)
    (w : World) : gmap string csv * World * Ending :=
  match argv with
  | Rejected => (fs, w, Exits 2)
  | HelpAsked => (fs, w, Exits 0)
  | Accepted cmd =>
      if tok_missing tok then (fs, w, Returns 2)
      else
        let t := default "" tok in
        match cmd with
        | CmdDump a =>
            let '(fs', w', r) := dump t a fs w in (fs', w', ending r)
        | CmdHydrate a =>
            let '(st, r) :=
              _run_hydrate t (hydrate_infile a) (hydrate_out a)
                (hydrate_resume a) fs w in
            (h_fs st, h_world st,
             match r with
             | Ok added => Returns (if Z.leb 0 added then 0 else 1)
             | Raise x => Raises x
             end)
        | CmdPipeline a =>
            let '(fs', w', r) := pipeline t a fs w in (fs', w', ending r)
        | CmdNone => (fs, w, Returns 0)
        end
  end.

(** [raise SystemExit(main())]: the value [main] returns is the exit status,
    as is the code of a [SystemExit] raised inside it; an exception nobody
    catches ends the interpreter with status 1. *)
Definition exit_status (r : Ending) : Z :=
  match r with
  | Returns n => n
  | Exits code => code
  | Raises _ => 1
  end.

End Program.

(** ** Vocabulary of the statements *)

(** The requests issued between two states of the world, newest first. *)
Definition issued (w w' : World) : list Request :=
  take (length w' - length w)%nat w'.


Definition is_obj (v : json) : bool :=
  match v with JObj _ => true | _ => false end.

(** What a page amounts to for the collector: the value of
    [js.get("hojin-infos") or []], or the exception met on the way. *)
Definition fetch_page `{Environment} (w : World) (req : Request) : result json :=
  match (_get_json w req).2 with
  | Raise e => Raise e
  | Ok js =>
      match py_get js "hojin-infos" with
      | Raise e => Raise e
      | Ok v => Ok (py_or v (JArr []))
      end
  end.

(** The request of the list endpoint for one page. *)
Definition page_request (tok pref_code corporate_type : string) (limit : Z)
    (exist_flg : option string) (page : Z) : Request :=
  ListReq tok corporate_type pref_code limit page (exist_flg_param exist_flg).

(** The identifier a record of the list file carries: its first cell, as
    the resume scan normalises it. *)
Definition record_id (r : list string) : string := strip (hd "" r).

(** A file after [rows] were appended to it one call at a time: nothing
    happens without rows, and the first call writes the header when the file
    is not there. *)
Definition grow (header : list string) (old : option csv) (rows : csv)
  : option csv :=
  match rows with
  | [] => old
  | _ =>
      Some (match old with
            | None => header :: rows
            | Some c => c ++ rows
            end)
  end.

(** The cells a file holds in its identifier column, as [csv.DictReader]
    hands them out. *)
Definition id_column (f : option csv) : list string :=
  match f with
  | None => []
  | Some c =>
      omap (fun nr => dictreader_get nr.1 nr.2 "corporate_number")
        (dictreader_rows c)
  end.

(** The state a row of the enrichment loop leaves behind when its fetch
    raised: one more request, one more error, one more row done. *)
Definition after_fetch_error (tok : string) (st : HydrateState) (cno : string)
  : HydrateState :=
  {| h_fs := h_fs st;
     h_world := DetailReq tok (strip cno) :: h_world st;
     h_processed := h_processed st;
     h_added := h_added st;
     h_errors := h_errors st + 1;
     h_done := h_done st + 1 |}.

(** What a pass of the collection loop did to the list file and to the
    skip-set: it appended [rows], whose identifiers are pairwise distinct,
    not empty and were not in the skip-set, and added these identifiers to
    the skip-set. *)
Definition collected (dest : string) (st st' : CollectState) (rows : csv)
  : Prop :=
  c_fs st' !! dest = grow LIST_FIELDS (c_fs st !! dest) rows
  /\ c_seen st' = c_seen st ∪ list_to_set (map record_id rows)
  /\ NoDup (map record_id rows)
  /\ Forall (fun r => length r = 2%nat /\ record_id r <> ""
                      /\ record_id r ∉ c_seen st) rows.

(** The same seen from the file alone. *)
Definition appended_fresh (old new : option csv) (rows : csv)
    (seen : gset string) : Prop :=
  new = grow LIST_FIELDS old rows
  /\ NoDup (map record_id rows)
  /\ Forall (fun r => length r = 2%nat /\ record_id r <> ""
                      /\ record_id r ∉ seen) rows.

(** A list file the resume scan reads as it was written: absent, or
    starting with the header of the list schema. *)
Definition list_file_ok (f : option csv) : Prop :=
  match f with
  | None => True
  | Some c => head c = Some LIST_FIELDS
  end.

(** The rows of the enrichment input, as the reader hands them out; none
    when the file is not there. *)
Definition input_rows (fs : gmap string csv) (infile : string)
  : list (list string * list string) :=
  match fs !! infile with
  | Some c => dictreader_rows c
  | None => []
  end.

(** A file system that kept everything another one held: every file of the
    first is there in the second, with what it held in front. *)
Definition extends (fs fs' : gmap string csv) : Prop :=
  forall p c, fs !! p = Some c -> exists extra, fs' !! p = Some (c ++ extra).

(** What the collection loop may do to the files: append to [dest]. *)
Definition appends_to (dest : string) (fs fs' : gmap string csv) : Prop :=
  (forall p, p <> dest -> fs' !! p = fs !! p) /\ extends fs fs'.

(** The files a command may write. *)
Definition outputs (cmd : Command) : list string :=
  match cmd with
  | CmdDump a => [dump_out a]
  | CmdHydrate a => [hydrate_out a]
  | CmdPipeline a => [pipeline_list_out a; pipeline_enrich_out a]
  | CmdNone => []
  end.

(** The same for a command line: none when it does not parse to
    arguments. *)
Definition argv_outputs (argv : Argv) : list string :=
  match argv with
  | Accepted cmd => outputs cmd
  | Rejected | HelpAsked => []
  end.

(** The arguments of the dump that collects what a pipeline collects. *)
Definition dump_args_of (a : PipelineArgs) : DumpArgs :=
  {| dump_out := pipeline_list_out a; dump_pref := pipeline_pref a;
     dump_limit := pipeline_limit a; dump_resume := pipeline_resume a;
     dump_exist_flg := pipeline_exist_flg a;
     dump_corporate_type := pipeline_corporate_type a;
     dump_max_pages := pipeline_max_pages a |}.

Definition is_list_request (r : Request) : bool :=
  match r with ListReq _ _ _ _ _ _ => true | DetailReq _ _ => false end.

Definition is_detail_request (r : Request) : bool :=
  match r with ListReq _ _ _ _ _ _ => false | DetailReq _ _ => true end.

(** A row as the collector yields it: a dict of the two keys. *)
Definition two_fields (row : json) : Prop :=
  exists c n, row = JObj [("corporate_number", c); ("name", n)].

(** ** Sample services and arguments for the closed examples *)

Definition sample_str (v : json) : string :=
  match v with
  | JNum n => pretty n
  | JBool true => "True"
  | JBool false => "False"
  | _ => ""
  end.

Definition env_of (srv : World -> Request -> Transport) : Environment :=
  {| server := srv; py_str := sample_str |}.

Definition item (cno name : string) : json :=
  JObj [("corporate_number", JStr cno); ("name", JStr name)].

Definition page_of (items : list json) : Transport :=
  Response 200 "" (Some (JObj [("hojin-infos", JArr items)])).

(** Every list page holds the one corporation 1000; no detail is found. *)
Definition srv_one_item : World -> Request -> Transport :=
  fun _ r =>
    match r with
    | ListReq _ _ _ _ _ _ => page_of [item "1000" "A"]
    | DetailReq _ _ => Response 404 "" None
    end.

(** Every list page holds the corporations 1000 and 2000. *)
Definition srv_two_items : World -> Request -> Transport :=
  fun _ r =>
    match r with
    | ListReq _ _ _ _ _ _ => page_of [item "1000" "A"; item "2000" "B"]
    | DetailReq _ _ => Response 404 "" None
    end.

(** The service is down: it answers 500 to every try. *)
Definition srv_down : World -> Request -> Transport :=
  fun _ _ => Response 500 "Internal Server Error" None.

(** The detail of 1000 times out on the first try and is served afterwards;
    the detail of 2000 is not found. *)
Definition srv_flaky : World -> Request -> Transport :=
  fun w r =>
    match r with
    | DetailReq _ "1000" =>
        match w with
        | [] => Failure Timeout
        | _ => page_of [item "1000" "A"]
        end
    | DetailReq _ _ => Response 404 "" None
    | ListReq _ _ _ _ _ _ => page_of []
    end.

Definition sample_dump (resume : bool) : DumpArgs :=
  {| dump_out := "list.csv"; dump_pref := "13"; dump_limit := 5000;
     dump_resume := resume; dump_exist_flg := "any";
     dump_corporate_type := "301"; dump_max_pages := 10 |}.

Definition sample_pipeline (pref : string) (limit max_pages : Z) (resume : bool)
  : PipelineArgs :=
  {| pipeline_pref := pref; pipeline_list_out := "list.csv";
     pipeline_enrich_out := "out.csv"; pipeline_exist_flg := "any";
     pipeline_corporate_type := "301"; pipeline_limit := limit;
     pipeline_max_pages := max_pages; pipeline_resume := resume |}.

(** A list file that names the corporation 1000 twice. *)
Definition sample_fs_twice : gmap string csv :=
  {[ "list.csv" := [LIST_FIELDS; ["1000"; "A"]; ["1000"; "A"]] ]}.

(** A list file of two corporations, the first of them enriched already. *)
Definition sample_fs_resumed : gmap string csv :=
  <[ "out.csv" :=
       [BASIC_FIELDS; ["1000"; "A"; ""; ""; ""; ""; ""; ""; ""; ""; ""]] ]>
    {[ "list.csv" := [LIST_FIELDS; ["1000"; "A"]; ["2000"; "B"]] ]}.

(** A list file that exists and is empty. *)
Definition sample_fs_empty_list : gmap string csv := {[ "list.csv" := [] ]}.

(** A list file written without its header. *)
Definition sample_fs_headerless : gmap string csv :=
  {[ "list.csv" := [["1000"; "A"]; ["2000"; "B"]] ]}.

(** A record as the service sends it, with white space around the number. *)
Definition sample_record : list (string * json) :=
  [("corporate_number", JStr " 1000 "); ("name", JStr "A")].

(** ** Properties *)

(** *** Strings *)

Lemma str_empty_true (s : string) : str_empty s = true <-> s = "".
Proof. destruct s; simpl; split; intros E; congruence. Qed.

Lemma str_empty_false (s : string) : str_empty s = false <-> s <> "".
Proof. destruct s; simpl; split; intros E; congruence. Qed.

Lemma rstrip_keeps_head (a : ascii) (t : string) :
  is_space a = false -> rstrip (String a t) = String a (rstrip t).
Proof.
  intros Ha. simpl. rewrite Ha. destruct (rstrip t); reflexivity.
Qed.

Lemma rstrip_idemp (s : string) : rstrip (rstrip s) = rstrip s.
Proof.
  induction s as [|a t IH]; [reflexivity|].
  simpl. destruct (rstrip t) as [|b r] eqn:Et.
  - destruct (is_space a) eqn:Ha; [reflexivity|].
    simpl. rewrite Ha. reflexivity.
  - change (rstrip (String a (String b r))) with
      (match rstrip (String b r) with
       | EmptyString => if is_space a then EmptyString else String a EmptyString
       | x => String a x
       end).
    rewrite IH. reflexivity.
Qed.

Lemma lstrip_head (s : string) :
  lstrip s = "" \/ exists a t, lstrip s = String a t /\ is_space a = false.
Proof.
  induction s as [|a t IH]; [left; reflexivity|].
  simpl. destruct (is_space a) eqn:Ha; [exact IH|].
  right. exists a, t. split; [reflexivity | exact Ha].
Qed.

Lemma strip_idemp (s : string) : strip (strip s) = strip s.
Proof.
  unfold strip. destruct (lstrip_head s) as [E | (a & t & E & Ha)]; rewrite E.
  - reflexivity.
  - rewrite (rstrip_keeps_head a t Ha). simpl lstrip. rewrite Ha.
    rewrite <- (rstrip_keeps_head a t Ha). apply rstrip_idemp.
Qed.

Lemma substring_length_le (n : nat) (s : string) :
  (String.length (substring 0 n s) <= n)%nat.
Proof.
  revert s. induction n as [|n IH]; intros [|a s]; simpl; try lia.
  specialize (IH s). lia.
Qed.

Lemma issued_app (new w : World) : issued w (new ++ w) = new.
Proof.
  unfold issued. rewrite length_app.
  replace (length new + length w - length w)%nat with (length new) by lia.
  apply take_app_length.
Qed.

Lemma issued_refl (w : World) : issued w w = [].
Proof. apply (issued_app [] w). Qed.



Section Properties.
Context `{Environment}.

(** *** The HTTP layer *)

Lemma _get_json_world (w : World) (req : Request) :
  (_get_json w req).1 = req :: w.
Proof. reflexivity. Qed.

Lemma fetch_world (tok : string) (w : World) (cno : string) :
  (fetch_basic_with_session tok w cno).1 = DetailReq tok (strip cno) :: w.
Proof. reflexivity. Qed.

(** C7. [_get_json] turns a 204 answer into the wrapper of an empty list and
    does not raise.  [fetch_basic_with_session] returns [None] for 204 and
    for 404, and for every other status but 200 raises a [RuntimeError]
    whose message holds the status code and the first 300 characters of the
    body. *)
Theorem http_status_handling (tok : string) (w : World) (req : Request)
    (cno : string) :
  (forall text body,
      server w req = Response 204 text body ->
      _get_json w req = (req :: w, Ok (JObj [("hojin-infos", JArr [])])))
  /\ (forall status_code text body,
      server w (DetailReq tok (strip cno)) = Response status_code text body ->
      status_code = 204 \/ status_code = 404 ->
      fetch_basic_with_session tok w cno
      = (DetailReq tok (strip cno) :: w, Ok JNull))
  /\ (forall status_code text body,
      server w (DetailReq tok (strip cno)) = Response status_code text body ->
      status_code <> 200 -> status_code <> 204 -> status_code <> 404 ->
      fetch_basic_with_session tok w cno
      = (DetailReq tok (strip cno) :: w,
         Raise (RuntimeError
                  ("HTTP " +:+ pretty status_code +:+ ": " +:+ substring 0 300 text)))
      /\ (String.length (substring 0 300 text) <= 300)%nat).
Proof.
  split; [|split].
  - intros text body E. unfold _get_json, session_get, send. rewrite E. reflexivity.
  - intros st text body E Hst. unfold fetch_basic_with_session, session_get, send.
    rewrite E. destruct Hst as [-> | ->]; reflexivity.
  - intros st text body E H200 H204 H404. split.
    + unfold fetch_basic_with_session, session_get, send. rewrite E.
      cbn [andb].
      destruct (Z.eqb_spec st 200) as [|_]; [contradiction|].
      destruct (Z.eqb_spec st 204) as [|_]; [contradiction|].
      destruct (Z.eqb_spec st 404) as [|_]; [contradiction|].
      reflexivity.
    + apply substring_length_le.
Qed.

(** *** The writer *)

Lemma write_rows_dicts (header : list string)
    (records : list (list (string * json))) :
  write_rows header (map JObj records) = (map (csv_row header) records, None).
Proof.
  induction records as [|kv rest IH]; [reflexivity|].
  simpl. rewrite IH. reflexivity.
Qed.

Lemma csv_row_lookup (header : list string) (kv : list (string * json))
    (i : nat) (k : string) :
  header !! i = Some k ->
  csv_row header kv !! i
  = Some (match assoc k kv with Some v => csv_cell v | None => "" end).
Proof.
  intros Hk. unfold csv_row. rewrite list_lookup_fmap, Hk. simpl.
  destruct (assoc k kv); reflexivity.
Qed.

(** C6. [append_rows] writes the header exactly when the file was not there,
    then one row per record; a row has one cell per entry of the column
    list, in its order, the cell of a column the record lacks being empty.
    Enriched rows are written with the 11 columns of [BASIC_FIELDS]. *)
Theorem append_rows_schema (path : string)
    (records : list (list (string * json))) (header : list string)
    (fs : gmap string csv) :
  (append_rows path (map JObj records) header fs).2 = None
  /\ (append_rows path (map JObj records) header fs).1 !! path
     = Some (default [] (fs !! path)
             ++ (match fs !! path with None => [header] | Some _ => [] end)
             ++ map (csv_row header) records)
  /\ (forall p, p <> path ->
        (append_rows path (map JObj records) header fs).1 !! p = fs !! p)
  /\ (forall kv,
        length (csv_row header kv) = length header
        /\ forall i k, header !! i = Some k ->
             csv_row header kv !! i
             = Some (match assoc k kv with Some v => csv_cell v | None => "" end))
  /\ length BASIC_FIELDS = 11%nat.
Proof.
  unfold append_rows. rewrite write_rows_dicts. simpl.
  split; [reflexivity|]. split; [|split; [|split]].
  - rewrite lookup_insert_eq. destruct (fs !! path); reflexivity.
  - intros p Hp. rewrite lookup_insert_ne by congruence. reflexivity.
  - intros kv. split.
    + unfold csv_row. apply length_map.
    + intros i k. apply csv_row_lookup.
  - reflexivity.
Qed.

(** *** The pagination collector *)

Section GeneratorFacts.
Context {S : Type} (body : S -> json -> S * option exn).
Context (tok pref_code corporate_type : string) (limit : Z)
        (exist_flg : option string).

#[local] Abbreviation req_of :=
  (page_request tok pref_code corporate_type limit exist_flg).
#[local] Abbreviation pages_from :=
  (iter_pages body tok pref_code corporate_type limit exist_flg).

(** One turn of the page loop. *)
Lemma iter_pages_cons (page : Z) (rest : list Z) (w : World) (s : S) :
  pages_from (page :: rest) w s
  = match fetch_page w (req_of page) with
    | Raise e => (req_of page :: w, s, Some e)
    | Ok items =>
        if negb (truthy items) then (req_of page :: w, s, None)
        else
          match items with
          | JArr l =>
              match yield_items body l s with
              | (s1, Some e) => (req_of page :: w, s1, Some e)
              | (s1, None) =>
                  if Z.ltb (Z.of_nat (length l)) limit
                  then (req_of page :: w, s1, None)
                  else pages_from rest (req_of page :: w) s1
              end
          | JStr _ | JObj _ => (req_of page :: w, s, Some AttributeError)
          | _ => (req_of page :: w, s, Some TypeError)
          end
    end.
Proof.
  unfold fetch_page, page_request. cbn [iter_pages].
  destruct (_get_json w _) as [w1 r] eqn:E.
  assert (w1 = ListReq tok corporate_type pref_code limit page
                 (exist_flg_param exist_flg) :: w) as ->.
  { apply (f_equal fst) in E. exact (eq_sym E). }
  cbn [snd]. destruct r as [js|e]; [|reflexivity].
  destruct (py_get js "hojin-infos") as [v|e]; [|reflexivity].
  destruct (negb (truthy (py_or v (JArr [])))); [reflexivity|].
  destruct (py_or v (JArr [])); reflexivity.
Qed.

(** The requests of a run are those of a prefix of the pages, in order. *)
Lemma iter_pages_requests (pages : list Z) (w : World) (s : S) :
  exists k, (k <= length pages)%nat
    /\ (pages <> [] -> (1 <= k)%nat)
    /\ (pages_from pages w s).1.1 = rev (map req_of (take k pages)) ++ w.
Proof.
  revert w s. induction pages as [|page rest IH]; intros w s.
  - exists 0%nat. simpl. split; [lia|]. split; [congruence|reflexivity].
  - assert (Hone : forall (s' : S) (e : option exn),
       exists k, (k <= length (page :: rest))%nat
         /\ (page :: rest <> [] -> (1 <= k)%nat)
         /\ (req_of page :: w, s', e).1.1
            = rev (map req_of (take k (page :: rest))) ++ w).
    { intros s' e. exists 1%nat. simpl. split; [lia|]. split; [lia|].
      reflexivity. }
    rewrite iter_pages_cons.
    destruct (fetch_page w (req_of page)) as [items|e]; [|apply Hone].
    destruct (negb (truthy items)); [apply Hone|].
    destruct items; try apply Hone.
    destruct (yield_items body l s) as [s1 [e|]]; [apply Hone|].
    destruct (Z.ltb (Z.of_nat (length l)) limit); [apply Hone|].
    destruct (IH (req_of page :: w) s1) as (k & Hk & _ & Hw).
    exists (Datatypes.S k). simpl. split; [lia|]. split; [lia|].
    rewrite Hw. rewrite <- app_assoc. reflexivity.
Qed.





End GeneratorFacts.


(** C5. Whatever the service answers and whatever the consumer does, the
    requests of one region are list requests for that region and there are
    at most [max_pages] of them (none when [max_pages] is not positive). *)
Theorem page_ceiling_enforced {S : Type} (body : S -> json -> S * option exn)
    (tok pref_code corporate_type : string) (limit : Z)
    (exist_flg : option string) (max_pages : Z) (w : World) (s : S) :
  let w' :=
    (iter_corporate_list body tok pref_code corporate_type limit exist_flg
       max_pages w s).1.1 in
  w' = issued w w' ++ w
  /\ Z.of_nat (length (issued w w')) <= Z.max 0 max_pages
  /\ Forall (fun r => exists page,
                r = page_request tok pref_code corporate_type limit exist_flg page)
        (issued w w').
Proof.
  unfold iter_corporate_list.
  destruct (iter_pages_requests body tok pref_code corporate_type limit
              exist_flg (seqZ 1 max_pages) w s) as (k & Hk & _ & Hw).
  cbn zeta. rewrite Hw, issued_app. split; [reflexivity|]. split.
  - rewrite length_rev, length_map, length_take.
    rewrite length_seqZ in Hk. lia.
  - apply Forall_forall. intros r Hr.
    apply list_elem_of_In, in_rev, in_map_iff in Hr as (page & <- & _).
    exists page. reflexivity.
Qed.


(** *** The enrichment runner *)

Lemma row_cno_stripped (row : list string * list string) :
  strip (row_cno row) = row_cno row.
Proof. unfold row_cno. apply strip_idemp. Qed.

Lemma hydrate_row_skip (tok out : string) (st : HydrateState)
    (row : list string * list string) :
  str_empty (row_cno row) = true \/ row_cno row ∈ h_processed st ->
  hydrate_row tok out st row = (st, None).
Proof.
  intros Hs. unfold hydrate_row.
  destruct Hs as [-> | Hin]; [reflexivity|].
  rewrite (bool_decide_eq_true_2 _ Hin), orb_true_r. reflexivity.
Qed.

Lemma hydrate_row_fetches (tok out : string) (st : HydrateState)
    (row : list string * list string) :
  str_empty (row_cno row) = false -> row_cno row ∉ h_processed st ->
  hydrate_row tok out st row
  = match (fetch_basic_with_session tok (h_world st) (row_cno row)).2 with
    | Raise _ => (after_fetch_error tok st (row_cno row), None)
    | Ok JNull =>
        ({| h_fs := h_fs st;
            h_world := DetailReq tok (strip (row_cno row)) :: h_world st;
            h_processed := h_processed st; h_added := h_added st;
            h_errors := h_errors st; h_done := h_done st + 1 |}, None)
    | Ok d =>
        match append_rows out [d] BASIC_FIELDS (h_fs st) with
        | (fs', Some x) =>
            ({| h_fs := fs';
                h_world := DetailReq tok (strip (row_cno row)) :: h_world st;
                h_processed := h_processed st; h_added := h_added st;
                h_errors := h_errors st; h_done := h_done st |}, Some x)
        | (fs', None) =>
            ({| h_fs := fs';
                h_world := DetailReq tok (strip (row_cno row)) :: h_world st;
                h_processed := h_processed st ∪ {[row_cno row]};
                h_added := h_added st + 1;
                h_errors := h_errors st; h_done := h_done st + 1 |}, None)
        end
    end.
Proof.
  intros Hne Hnot. unfold hydrate_row.
  rewrite Hne, (bool_decide_eq_false_2 _ Hnot). cbn [orb].
  destruct (fetch_basic_with_session tok (h_world st) (row_cno row))
    as [w' r] eqn:E.
  assert (w' = DetailReq tok (strip (row_cno row)) :: h_world st) as ->.
  { apply (f_equal fst) in E. exact (eq_sym E). }
  cbn [snd]. destruct r as [d|e]; [|reflexivity].
  destruct d; try reflexivity;
    destruct (append_rows out _ BASIC_FIELDS (h_fs st)) as [fs' [x|]];
    reflexivity.
Qed.

Lemma hydrate_loop_app (tok out : string)
    (pre post : list (list string * list string)) (st : HydrateState) :
  hydrate_loop tok out (pre ++ post) st
  = match hydrate_loop tok out pre st with
    | (st1, None) => hydrate_loop tok out post st1
    | (st1, Some x) => (st1, Some x)
    end.
Proof.
  revert st. induction pre as [|row pre IH]; intros st; [reflexivity|].
  simpl. destruct (hydrate_row tok out st row) as [st' [x|]]; [reflexivity|].
  apply IH.
Qed.

(** C3. When the fetch for a row's identifier raises, the row ends with the
    error counter one higher, with the files, the resume set and the count
    of added rows as they were, and without an exception: the loop goes on
    with the rows that follow. *)
Theorem fetch_failure_isolated (tok out : string)
    (pre post : list (list string * list string))
    (row : list string * list string) (st st1 : HydrateState) (e : exn) :
  hydrate_loop tok out pre st = (st1, None) ->
  str_empty (row_cno row) = false ->
  row_cno row ∉ h_processed st1 ->
  (fetch_basic_with_session tok (h_world st1) (row_cno row)).2 = Raise e ->
  hydrate_row tok out st1 row = (after_fetch_error tok st1 (row_cno row), None)
  /\ h_errors (after_fetch_error tok st1 (row_cno row)) = h_errors st1 + 1
  /\ h_fs (after_fetch_error tok st1 (row_cno row)) = h_fs st1
  /\ hydrate_loop tok out (pre ++ row :: post) st
     = hydrate_loop tok out post (after_fetch_error tok st1 (row_cno row)).
Proof.
  intros Hpre Hne Hnot Hfail.
  assert (Hrow : hydrate_row tok out st1 row
                 = (after_fetch_error tok st1 (row_cno row), None)).
  { rewrite (hydrate_row_fetches tok out st1 row Hne Hnot), Hfail. reflexivity. }
  split; [exact Hrow|]. split; [reflexivity|]. split; [reflexivity|].
  rewrite hydrate_loop_app, Hpre. simpl. rewrite Hrow. reflexivity.
Qed.

(** What a row of the loop can do: nothing, or one fetch for its own
    identifier, after which the resume set is unchanged unless a record came
    back and was appended. *)
Lemma hydrate_row_trace (tok out : string) (st st' : HydrateState)
    (row : list string * list string) (e : option exn) :
  hydrate_row tok out st row = (st', e) ->
  (st' = st /\ e = None
   /\ (str_empty (row_cno row) = true \/ row_cno row ∈ h_processed st))
  \/ (h_world st' = DetailReq tok (row_cno row) :: h_world st
      /\ row_cno row <> ""
      /\ (row_cno row ∉ h_processed st)
      /\ (h_processed st' = h_processed st
          \/ (h_processed st' = h_processed st ∪ {[row_cno row]}
              /\ e = None
              /\ exists d,
                   (fetch_basic_with_session tok (h_world st) (row_cno row)).2
                   = Ok d
                   /\ d <> JNull
                   /\ append_rows out [d] BASIC_FIELDS (h_fs st)
                      = (h_fs st', None)))).
Proof.
  intros Hrow.
  destruct (str_empty (row_cno row)) eqn:Hne.
  { rewrite hydrate_row_skip in Hrow by (left; exact Hne).
    left. injection Hrow as <- <-. auto. }
  destruct (decide (row_cno row ∈ h_processed st)) as [Hin|Hnot].
  { rewrite hydrate_row_skip in Hrow by (right; exact Hin).
    left. injection Hrow as <- <-. auto. }
  right. rewrite (hydrate_row_fetches tok out st row Hne Hnot) in Hrow.
  unfold after_fetch_error in Hrow. rewrite row_cno_stripped in Hrow.
  apply str_empty_false in Hne.
  destruct (fetch_basic_with_session tok (h_world st) (row_cno row)).2
    as [d|x] eqn:Hf.
  - assert (Hrec : d <> JNull ->
        match append_rows out [d] BASIC_FIELDS (h_fs st) with
        | (fs', Some y) =>
            ({| h_fs := fs';
                h_world := DetailReq tok (row_cno row) :: h_world st;
                h_processed := h_processed st; h_added := h_added st;
                h_errors := h_errors st; h_done := h_done st |}, Some y)
        | (fs', None) =>
            ({| h_fs := fs';
                h_world := DetailReq tok (row_cno row) :: h_world st;
                h_processed := h_processed st ∪ {[row_cno row]};
                h_added := h_added st + 1;
                h_errors := h_errors st; h_done := h_done st + 1 |}, None)
        end = (st', e) ->
        h_world st' = DetailReq tok (row_cno row) :: h_world st
        /\ (h_processed st' = h_processed st
            \/ (h_processed st' = h_processed st ∪ {[row_cno row]}
                /\ e = None
                /\ exists d0, Ok d = Ok d0 /\ d0 <> JNull
                     /\ append_rows out [d0] BASIC_FIELDS (h_fs st)
                        = (h_fs st', None)))).
    { intros Hd Hres.
      destruct (append_rows out [d] BASIC_FIELDS (h_fs st)) as [fs' [y|]] eqn:Ha;
        injection Hres as <- <-; cbn; split; try reflexivity.
      - left. reflexivity.
      - right. split; [reflexivity|]. split; [reflexivity|].
        exists d. split; [reflexivity|]. split; [exact Hd|exact Ha]. }
    destruct d.
    1:{ injection Hrow as <- <-. cbn. split; [reflexivity|].
        split; [exact Hne|]. split; [exact Hnot|]. left. reflexivity. }
    all: destruct (Hrec ltac:(discriminate) Hrow) as (Hw & Hp);
      split; [exact Hw|]; split; [exact Hne|]; split; [exact Hnot|]; exact Hp.
  - injection Hrow as <- <-. cbn. split; [reflexivity|].
    split; [exact Hne|]. split; [exact Hnot|]. left. reflexivity.
Qed.

(** The requests of the loop are detail requests for non-empty, normalised
    identifiers outside the resume set the loop started from, which only
    grows. *)
Lemma hydrate_loop_requests (tok out : string)
    (rows : list (list string * list string)) (st st' : HydrateState)
    (e : option exn) :
  hydrate_loop tok out rows st = (st', e) ->
  h_processed st ⊆ h_processed st'
  /\ exists new,
       h_world st' = new ++ h_world st
       /\ Forall (fun r => exists c, r = DetailReq tok c /\ c <> ""
                            /\ strip c = c /\ c ∉ h_processed st) new.
Proof.
  revert st. induction rows as [|row rest IH]; intros st Hloop.
  - inversion Hloop; subst. split; [reflexivity|]. exists [].
    split; [reflexivity|]. constructor.
  - simpl in Hloop.
    destruct (hydrate_row tok out st row) as [st1 e1] eqn:Hrow.
    assert (Hstep : h_processed st ⊆ h_processed st1
              /\ exists new,
                   h_world st1 = new ++ h_world st
                   /\ Forall (fun r => exists c, r = DetailReq tok c /\ c <> ""
                                    /\ strip c = c /\ c ∉ h_processed st) new).
    { destruct (hydrate_row_trace tok out st st1 row e1 Hrow)
        as [(-> & _ & _) | (Hw & Hne & Hnot & Hp)].
      - split; [reflexivity|]. exists []. split; [reflexivity|]. constructor.
      - split; [destruct Hp as [-> | (-> & _)];
                [reflexivity|apply union_subseteq_l]|].
        exists [DetailReq tok (row_cno row)]. split; [exact Hw|].
        constructor; [|constructor].
        exists (row_cno row). auto using row_cno_stripped. }
    destruct e1 as [x|].
    + inversion Hloop; subst. exact Hstep.
    + destruct Hstep as (Hsub & new1 & Hw1 & Hall1).
      destruct (IH st1 Hloop) as (Hsub2 & new2 & Hw2 & Hall2).
      split; [etrans; eassumption|].
      exists (new2 ++ new1). split.
      * rewrite Hw2, Hw1, app_assoc. reflexivity.
      * apply Forall_app. split; [|exact Hall1].
        eapply Forall_impl; [exact Hall2|].
        intros r (c & -> & Hc1 & Hc2 & Hc3). exists c.
        repeat split; try assumption. intros Hc. apply Hc3, Hsub, Hc.
Qed.

Lemma id_column_file_ids (f : option csv) (X : string) :
  X ∈ id_column f -> strip X <> "" -> strip X ∈ file_ids f.
Proof.
  unfold id_column, file_ids. destruct f as [c|]; [|intros Hx; inversion Hx].
  intros Hx Hne.
  apply list_elem_of_omap in Hx as (nr & Hnr & Hget).
  apply list_elem_of_In, filter_In. split.
  - apply in_map_iff. exists nr. split; [|apply list_elem_of_In; exact Hnr].
    unfold row_cno. rewrite Hget. reflexivity.
  - apply negb_true_iff, str_empty_false. exact Hne.
Qed.

(** C2. With resume set, no request of the enrichment run asks for the
    detail of an identifier that the output file held in its identifier
    column when the run started, neither as written there nor stripped. *)
Theorem resume_skips_enriched (tok infile out : string) (fs : gmap string csv)
    (w : World) (X : string) :
  X ∈ id_column (fs !! out) ->
  let w' := h_world (_run_hydrate tok infile out true fs w).1 in
  w' = issued w w' ++ w
  /\ Forall (fun r => exists c, r = DetailReq tok c /\ c <> X /\ c <> strip X)
       (issued w w').
Proof.
  intros HX. cbn zeta. unfold _run_hydrate.
  destruct (fs !! infile) as [c|] eqn:Hin; cbn [fst].
  2:{ change (h_world (hydrate_start true out fs w)) with w.
      rewrite issued_refl. split; [reflexivity|constructor]. }
  destruct (hydrate_loop tok out (dictreader_rows c) (hydrate_start true out fs w))
    as [st e] eqn:Hloop. cbn [fst].
  destruct (hydrate_loop_requests _ _ _ _ _ _ Hloop) as (_ & new & Hw & Hall).
  cbn in Hw. rewrite Hw, issued_app. split; [reflexivity|].
  eapply Forall_impl; [exact Hall|].
  intros r (cno & -> & Hne & Hstrip & Hnot). exists cno. split; [reflexivity|].
  cbn in Hnot. unfold read_existing_numbers in Hnot.
  rewrite elem_of_list_to_set in Hnot.
  assert (Hkey : cno <> strip X).
  { intros ->. apply Hnot. apply id_column_file_ids; assumption. }
  split; [|exact Hkey].
  intros ->. apply Hkey. symmetry. exact Hstrip.
Qed.

(** A loop that runs to its end fetches every identifier of its rows that
    is not empty and was not in the resume set at the start. *)
Lemma hydrate_loop_reaches (tok out : string)
    (rows : list (list string * list string)) (st st' : HydrateState)
    (row : list string * list string) :
  hydrate_loop tok out rows st = (st', None) ->
  row ∈ rows -> row_cno row <> "" ->
  row_cno row ∈ h_processed st
  \/ exists new, h_world st' = new ++ h_world st
               /\ DetailReq tok (row_cno row) ∈ new.
Proof.
  revert st. induction rows as [|r0 rest IH]; intros st Hloop Hin Hne.
  { inversion Hin. }
  simpl in Hloop. destruct (hydrate_row tok out st r0) as [st1 e1] eqn:Hrow.
  destruct e1 as [x|]; [discriminate Hloop|].
  destruct (hydrate_loop_requests tok out rest st1 st' None Hloop)
    as (_ & new2 & Hw2 & _).
  assert (Hfetched : h_world st1 = DetailReq tok (row_cno r0) :: h_world st ->
            row_cno r0 = row_cno row ->
            exists new, h_world st' = new ++ h_world st
                        /\ DetailReq tok (row_cno row) ∈ new).
  { intros Hw1 Heq. exists (new2 ++ [DetailReq tok (row_cno r0)]). split.
    - rewrite Hw2, Hw1, <- app_assoc. reflexivity.
    - rewrite Heq. apply elem_of_app. right. apply list_elem_of_singleton.
      reflexivity. }
  destruct (hydrate_row_trace tok out st st1 r0 None Hrow)
    as [(-> & _ & Hskip) | (Hw1 & Hne0 & Hnot0 & Hp)].
  - apply elem_of_cons in Hin as [-> | Hin].
    + destruct Hskip as [Hempty | Hproc]; [|left; exact Hproc].
      apply str_empty_true in Hempty. contradiction.
    + exact (IH st Hloop Hin Hne).
  - apply elem_of_cons in Hin as [-> | Hin]; [right; apply Hfetched; auto|].
    destruct (IH st1 Hloop Hin Hne) as [Hproc | (new & Hw & Hnew)].
    + destruct Hp as [Hp | (Hp & _)]; rewrite Hp in Hproc; [left; exact Hproc|].
      apply elem_of_union in Hproc as [Hproc | Hproc]; [left; exact Hproc|].
      apply elem_of_singleton in Hproc.
      right. apply Hfetched; auto.
    + right. exists (new ++ [DetailReq tok (row_cno r0)]). split.
      * rewrite Hw, Hw1, <- app_assoc. reflexivity.
      * apply elem_of_app. left. exact Hnew.
Qed.

(** C10, amended. A row of the enrichment loop adds its identifier to the
    resume set only when its fetch returned a record and the record was
    appended; a row whose fetch raised or found nothing leaves the set as it
    was.  A later run with resume set that reads its input to the end
    fetches every non-empty identifier of the input that the output file
    does not hold in its identifier column. *)
Theorem resume_set_marks_appended (tok out : string) :
  (forall st st' row e,
      hydrate_row tok out st row = (st', e) ->
      h_processed st' = h_processed st
      \/ (h_processed st' = h_processed st ∪ {[row_cno row]}
          /\ e = None
          /\ exists d,
               (fetch_basic_with_session tok (h_world st) (row_cno row)).2 = Ok d
               /\ d <> JNull
               /\ append_rows out [d] BASIC_FIELDS (h_fs st) = (h_fs st', None)))
  /\ (forall st st' row e,
      hydrate_row tok out st row = (st', e) ->
      (exists x,
          (fetch_basic_with_session tok (h_world st) (row_cno row)).2 = Raise x)
      \/ (fetch_basic_with_session tok (h_world st) (row_cno row)).2 = Ok JNull ->
      h_processed st' = h_processed st)
  /\ (forall infile fs w c row st' n,
      fs !! infile = Some c ->
      row ∈ dictreader_rows c ->
      row_cno row <> "" ->
      row_cno row ∉ file_ids (fs !! out) ->
      _run_hydrate tok infile out true fs w = (st', Ok n) ->
      DetailReq tok (row_cno row) ∈ issued w (h_world st')).
Proof.
  split; [|split].
  - intros st st' row e Hrow.
    destruct (hydrate_row_trace tok out st st' row e Hrow)
      as [(-> & _ & _) | (_ & _ & _ & Hp)]; [left; reflexivity | exact Hp].
  - intros st st' row e Hrow Hfail.
    destruct (hydrate_row_trace tok out st st' row e Hrow)
      as [(-> & _ & _) | (_ & _ & _ & [Hp | (_ & _ & d & Hd & Hnn & _)])];
      [reflexivity | exact Hp |].
    destruct Hfail as [(x & Hx) | Hnull]; congruence.
  - intros infile fs w c row st' n Hin Hrow Hne Hnot Hrun.
    unfold _run_hydrate in Hrun. rewrite Hin in Hrun.
    destruct (hydrate_loop tok out (dictreader_rows c)
                (hydrate_start true out fs w)) as [st e] eqn:Hloop.
    destruct e as [x|]; [discriminate Hrun|].
    injection Hrun as <- _.
    destruct (hydrate_loop_reaches tok out _ _ _ row Hloop Hrow Hne)
      as [Hproc | (new & Hw & Hnew)].
    + exfalso. apply Hnot. cbn in Hproc. unfold read_existing_numbers in Hproc.
      apply elem_of_list_to_set in Hproc. exact Hproc.
    + change (h_world (hydrate_start true out fs w)) with w in Hw.
      rewrite Hw, issued_app. exact Hnew.
Qed.

(** *** Collection and the skip-set *)

Lemma grow_app (header : list string) (old : option csv) (r1 r2 : csv) :
  grow header (grow header old r1) r2 = grow header old (r1 ++ r2).
Proof.
  destruct r1 as [|a r1]; [reflexivity|].
  destruct r2 as [|b r2]; [rewrite app_nil_r; reflexivity|].
  destruct old as [c|]; simpl; rewrite <- ?app_assoc; reflexivity.
Qed.

Lemma collected_refl (dest : string) (st : CollectState) :
  collected dest st st [].
Proof.
  repeat split; try constructor.
  simpl. rewrite union_empty_r_L. reflexivity.
Qed.

Lemma collected_trans (dest : string) (st st1 st2 : CollectState)
    (r1 r2 : csv) :
  collected dest st st1 r1 -> collected dest st1 st2 r2 ->
  collected dest st st2 (r1 ++ r2).
Proof.
  intros (Hf1 & Hs1 & Hn1 & Ha1) (Hf2 & Hs2 & Hn2 & Ha2).
  repeat split.
  - rewrite Hf2, Hf1. apply grow_app.
  - rewrite Hs2, Hs1, map_app, list_to_set_app_L, union_assoc_L. reflexivity.
  - rewrite map_app. apply NoDup_app. split; [exact Hn1|]. split; [|exact Hn2].
    intros x Hx1 Hx2.
    apply list_elem_of_In, in_map_iff in Hx2 as (r & <- & Hr).
    apply list_elem_of_In in Hr.
    rewrite Forall_forall in Ha2. destruct (Ha2 r Hr) as (_ & _ & Hnot).
    apply Hnot. rewrite Hs1. apply elem_of_union. right.
    apply elem_of_list_to_set. exact Hx1.
  - apply Forall_app. split; [exact Ha1|].
    eapply Forall_impl; [exact Ha2|].
    intros r (Hl & Hne & Hnot). repeat split; try assumption.
    intros Hin. apply Hnot. rewrite Hs1. apply elem_of_union. left. exact Hin.
Qed.

(** A row passes the guard only when it is a dict whose number is a
    non-empty string. *)
Lemma cno_of_inv (row : json) (cno : string) :
  cno_of row = Ok cno -> cno <> "" ->
  exists kv s, row = JObj kv /\ assoc "corporate_number" kv = Some (JStr s)
               /\ cno = strip s.
Proof.
  intros Hc Hne. destruct row; try discriminate Hc.
  unfold cno_of in Hc. cbn [py_get] in Hc.
  exists kv. destruct (assoc "corporate_number" kv) as [v|] eqn:Ha.
  - change (default JNull (Some v)) with v in Hc. unfold py_or in Hc.
    destruct (truthy v) eqn:Ht.
    + destruct v as [| b | n | s | l | kv']; try discriminate Hc.
      injection Hc as <-. exists s. auto.
    + injection Hc as <-. contradiction Hne. reflexivity.
  - cbn in Hc. injection Hc as <-. contradiction Hne. reflexivity.
Qed.

Lemma append_rows_one_dict (dest : string) (kv : list (string * json))
    (header : list string) (fs : gmap string csv) :
  append_rows dest [JObj kv] header fs
  = (<[dest := default [] (fs !! dest)
               ++ (match fs !! dest with None => [header] | Some _ => [] end)
               ++ [csv_row header kv]]> fs, None).
Proof.
  unfold append_rows. cbn [write_rows].
  destruct (fs !! dest); reflexivity.
Qed.

Lemma collect_row_skip (dest : string) (st : CollectState) (row : json)
    (cno : string) :
  cno_of row = Ok cno ->
  str_empty cno = true \/ cno ∈ c_seen st ->
  collect_row dest st row = (st, None).
Proof.
  intros Hc Hs. unfold collect_row. rewrite Hc.
  destruct Hs as [-> | Hin]; [reflexivity|].
  rewrite (bool_decide_eq_true_2 _ Hin), orb_true_r. reflexivity.
Qed.

Lemma collect_row_appends (dest : string) (st : CollectState) (row : json)
    (cno : string) :
  cno_of row = Ok cno -> str_empty cno = false -> cno ∉ c_seen st ->
  exists fs' r,
    collect_row dest st row
    = ({| c_fs := fs'; c_seen := c_seen st ∪ {[cno]}; c_new := c_new st + 1 |},
       None)
    /\ fs' !! dest = grow LIST_FIELDS (c_fs st !! dest) [r]
    /\ length r = 2%nat /\ record_id r = cno.
Proof.
  intros Hc Hne Hnot.
  destruct (cno_of_inv row cno Hc) as (kv & s & -> & Ha & ->).
  { apply str_empty_false. exact Hne. }
  unfold collect_row. rewrite Hc, Hne, (bool_decide_eq_false_2 _ Hnot).
  cbn [orb]. rewrite append_rows_one_dict.
  eexists _, (csv_row LIST_FIELDS kv). split; [reflexivity|]. split.
  - rewrite lookup_insert_eq. destruct (c_fs st !! dest); reflexivity.
  - split; [reflexivity|].
    unfold record_id, csv_row. cbn [map LIST_FIELDS hd]. rewrite Ha. reflexivity.
Qed.

Lemma collect_row_collected (dest : string) (st st' : CollectState)
    (row : json) (e : option exn) :
  collect_row dest st row = (st', e) -> exists rows, collected dest st st' rows.
Proof.
  intros Hrow. destruct (cno_of row) as [cno|x] eqn:Hc.
  2:{ unfold collect_row in Hrow. rewrite Hc in Hrow. injection Hrow as <- _.
      exists []. apply collected_refl. }
  destruct (str_empty cno) eqn:Hne.
  { rewrite (collect_row_skip dest st row cno Hc) in Hrow by (left; exact Hne).
    injection Hrow as <- _. exists []. apply collected_refl. }
  destruct (decide (cno ∈ c_seen st)) as [Hin|Hnot].
  { rewrite (collect_row_skip dest st row cno Hc) in Hrow by (right; exact Hin).
    injection Hrow as <- _. exists []. apply collected_refl. }
  destruct (collect_row_appends dest st row cno Hc Hne Hnot)
    as (fs' & r & Heq & Hfs & Hlen & Hid).
  rewrite Heq in Hrow. injection Hrow as <- _.
  exists [r]. repeat split; cbn.
  - exact Hfs.
  - rewrite Hid, union_empty_r_L. reflexivity.
  - apply NoDup_singleton.
  - constructor; [|constructor]. rewrite Hid.
    split; [exact Hlen|]. split; [apply str_empty_false; exact Hne | exact Hnot].
Qed.

(** A relation that the consumer's body respects is respected by the whole
    iteration, however it ends. *)
Section FoldInvariant.
Context {S : Type} (body : S -> json -> S * option exn) (R : S -> S -> Prop).
Hypothesis R_refl : forall s, R s s.
Hypothesis R_trans : forall a b c, R a b -> R b c -> R a c.
Hypothesis R_body : forall s row s' e, body s row = (s', e) -> R s s'.

Lemma yield_items_rel (items : list json) (s : S) :
  R s (yield_items body items s).1.
Proof.
  revert s. induction items as [|it rest IH]; intros s; [apply R_refl|].
  cbn [yield_items].
  destruct (py_get it "corporate_number") as [c|x]; [|apply R_refl].
  destruct (py_get it "name") as [n|x]; [|apply R_refl].
  destruct (body s _) as [s' r] eqn:Hb. apply R_body in Hb.
  destruct r as [x|]; [exact Hb|].
  eapply R_trans; [exact Hb | apply IH].
Qed.

Lemma iter_pages_rel (tok pref_code corporate_type : string) (limit : Z)
    (exist_flg : option string) (pages : list Z) (w : World) (s : S) :
  R s (iter_pages body tok pref_code corporate_type limit exist_flg pages w s).1.2.
Proof.
  revert w s. induction pages as [|page rest IH]; intros w s; [apply R_refl|].
  rewrite iter_pages_cons.
  destruct (fetch_page w _) as [items|x]; [|apply R_refl].
  destruct (negb (truthy items)); [apply R_refl|].
  destruct items; try apply R_refl.
  pose proof (yield_items_rel l s) as Hy.
  destruct (yield_items body l s) as [s1 [x|]]; [exact Hy|].
  destruct (Z.ltb (Z.of_nat (length l)) limit); [exact Hy|].
  eapply R_trans; [exact Hy | apply IH].
Qed.

End FoldInvariant.

(** The pass over one region. *)
Lemma region_collected (dest tok pref_code corporate_type : string) (limit : Z)
    (exist_flg : option string) (max_pages : Z) (w : World)
    (st : CollectState) :
  exists rows,
    collected dest st
      (iter_corporate_list (collect_row dest) tok pref_code corporate_type
         limit exist_flg max_pages w st).1.2 rows.
Proof.
  unfold iter_corporate_list.
  apply (iter_pages_rel (collect_row dest)
           (fun a b => exists rows, collected dest a b rows)).
  - intros s. exists []. apply collected_refl.
  - intros a b c (r1 & H1) (r2 & H2). exists (r1 ++ r2).
    eapply collected_trans; eassumption.
  - intros s row s' e. apply collect_row_collected.
Qed.

Lemma dump_loop_collected (tok : string) (a : DumpArgs) (prefs : list string)
    (w : World) (st : CollectState) :
  exists rows, collected (dump_out a) st (dump_loop tok a prefs w st).1.2 rows.
Proof.
  revert w st. induction prefs as [|pref rest IH]; intros w st.
  { exists []. apply collected_refl. }
  cbn [dump_loop].
  destruct (region_collected (dump_out a) tok pref (dump_corporate_type a)
              (dump_page_limit a) (exist_flag_param (dump_exist_flg a))
              (dump_page_ceiling a) w st) as (r1 & H1).
  destruct (iter_corporate_list _ tok pref _ _ _ _ w st) as [[w1 st1] e].
  cbn [fst snd] in H1.
  destruct e as [x|]; [exists r1; exact H1|].
  destruct (IH w1 st1) as (r2 & H2).
  exists (r1 ++ r2). eapply collected_trans; eassumption.
Qed.

(** *** The list file as the resume scan reads it *)

Lemma list_file_ok_grow (old : option csv) (rows : csv) :
  list_file_ok old -> list_file_ok (grow LIST_FIELDS old rows).
Proof.
  intros Hok. destruct rows as [|r rows]; [exact Hok|].
  destruct old as [[|h c]|]; simpl in *; try discriminate Hok; auto.
Qed.

Lemma reader_ids_written (rows : csv) :
  Forall (fun r => length r = 2%nat /\ record_id r <> "") rows ->
  List.filter (fun c => negb (str_empty c))
    (map row_cno (map (fun r => (LIST_FIELDS, r)) (List.filter nonblank rows)))
  = map record_id rows.
Proof.
  induction 1 as [|r rows (Hlen & Hne) _ IH]; [reflexivity|].
  destruct r as [|c1 [|c2 [|c3 r]]]; try discriminate Hlen.
  cbn [List.filter nonblank map].
  assert (Hid : row_cno (LIST_FIELDS, [c1; c2]) = record_id [c1; c2])
    by reflexivity.
  rewrite Hid. apply str_empty_false in Hne. rewrite Hne. cbn [negb].
  rewrite IH. reflexivity.
Qed.

Lemma file_ids_grow (old : option csv) (rows : csv) :
  list_file_ok old ->
  Forall (fun r => length r = 2%nat /\ record_id r <> "") rows ->
  file_ids (grow LIST_FIELDS old rows) = file_ids old ++ map record_id rows.
Proof.
  intros Hok Hrows. destruct rows as [|r rows].
  { simpl. rewrite app_nil_r. reflexivity. }
  pose proof (reader_ids_written (r :: rows) Hrows) as Hw.
  destruct old as [[|h c]|]; simpl in Hok; try discriminate Hok.
  - injection Hok as ->.
    unfold grow, file_ids. cbn [app dictreader_rows].
    rewrite List.filter_app, !map_app, List.filter_app, Hw. reflexivity.
  - unfold grow, file_ids. cbn [dictreader_rows]. exact Hw.
Qed.

Lemma appended_fresh_weaken (old new : option csv) (rows : csv)
    (seen seen' : gset string) :
  seen' ⊆ seen -> appended_fresh old new rows seen ->
  appended_fresh old new rows seen'.
Proof.
  intros Hsub (Hg & Hn & Ha). repeat split; try assumption.
  eapply Forall_impl; [exact Ha|].
  intros r (Hl & Hne & Hnot). repeat split; try assumption.
  intros Hin. apply Hnot, Hsub, Hin.
Qed.

Lemma appended_fresh_nodup_free (old new : option csv) (rows : csv)
    (seen : gset string) :
  list_file_ok old -> appended_fresh old new rows seen ->
  list_file_ok new /\ file_ids new = file_ids old ++ map record_id rows.
Proof.
  intros Hok (-> & Hn & Ha).
  split; [apply list_file_ok_grow; exact Hok|].
  apply file_ids_grow; [exact Hok|].
  eapply Forall_impl; [exact Ha|]. intros r (? & ? & _). auto.
Qed.

Lemma appended_fresh_nodup (old new : option csv) (rows : csv) :
  list_file_ok old -> NoDup (file_ids old) ->
  appended_fresh old new rows (list_to_set (file_ids old)) ->
  list_file_ok new /\ NoDup (file_ids new)
  /\ file_ids new = file_ids old ++ map record_id rows.
Proof.
  intros Hok Hnd (-> & Hn & Ha).
  assert (Hrows : Forall (fun r => length r = 2%nat /\ record_id r <> "") rows).
  { eapply Forall_impl; [exact Ha|]. intros r (? & ? & _). auto. }
  split; [apply list_file_ok_grow; exact Hok|].
  rewrite (file_ids_grow old rows Hok Hrows). split; [|reflexivity].
  apply NoDup_app. split; [exact Hnd|]. split; [|exact Hn].
  intros x Hx1 Hx2.
  apply list_elem_of_In, in_map_iff in Hx2 as (r & <- & Hr).
  apply list_elem_of_In in Hr.
  rewrite Forall_forall in Ha. destruct (Ha r Hr) as (_ & _ & Hnot).
  apply Hnot, elem_of_list_to_set, Hx1.
Qed.

Lemma collected_fresh (dest : string) (st st' : CollectState) (rows : csv) :
  collected dest st st' rows ->
  appended_fresh (c_fs st !! dest) (c_fs st' !! dest) rows (c_seen st).
Proof. intros (Hf & _ & Hn & Ha). repeat split; assumption. Qed.

Lemma appended_fresh_trans (old mid new : option csv) (r1 r2 : csv)
    (seen : gset string) :
  appended_fresh old mid r1 seen ->
  appended_fresh mid new r2 (seen ∪ list_to_set (map record_id r1)) ->
  appended_fresh old new (r1 ++ r2) seen.
Proof.
  intros (-> & Hn1 & Ha1) (-> & Hn2 & Ha2). repeat split.
  - apply grow_app.
  - rewrite map_app. apply NoDup_app. split; [exact Hn1|]. split; [|exact Hn2].
    intros x Hx1 Hx2.
    apply list_elem_of_In, in_map_iff in Hx2 as (r & <- & Hr).
    apply list_elem_of_In in Hr.
    rewrite Forall_forall in Ha2. destruct (Ha2 r Hr) as (_ & _ & Hnot).
    apply Hnot, elem_of_union. right. apply elem_of_list_to_set. exact Hx1.
  - apply Forall_app. split; [exact Ha1|].
    eapply Forall_impl; [exact Ha2|].
    intros r (Hl & Hne & Hnot). repeat split; try assumption.
    intros Hin. apply Hnot, elem_of_union. left. exact Hin.
Qed.

(** A dump run: one skip-set from the first region to the last. *)
Lemma dump_fresh (tok : string) (a : DumpArgs) (fs : gmap string csv)
    (w : World) :
  exists rows,
    appended_fresh (fs !! dump_out a) ((dump tok a fs w).1.1 !! dump_out a)
      rows
      (if dump_resume a then read_existing_numbers fs (dump_out a) else ∅).
Proof.
  unfold dump.
  set (st0 := {| c_fs := fs;
                 c_seen := if dump_resume a
                           then read_existing_numbers fs (dump_out a) else ∅;
                 c_new := 0 |}).
  destruct (dump_loop_collected tok a (targets (dump_pref a)) w st0)
    as (rows & Hc).
  destruct (dump_loop tok a (targets (dump_pref a)) w st0) as [[w' st] e].
  exists rows. exact (collected_fresh _ _ _ _ Hc).
Qed.

(** The collection phase of a pipeline run that resumes: the skip-set is
    read back from the file before every region. *)
Lemma pipeline_loop_fresh (tok : string) (a : PipelineArgs)
    (prefs : list string) (w : World) (fs : gmap string csv) :
  pipeline_resume a = true ->
  list_file_ok (fs !! pipeline_list_out a) ->
  exists rows,
    appended_fresh (fs !! pipeline_list_out a)
      ((pipeline_dump_loop tok a prefs w fs).1.2 !! pipeline_list_out a) rows
      (read_existing_numbers fs (pipeline_list_out a)).
Proof.
  intros Hres. revert w fs. induction prefs as [|pref rest IH]; intros w fs Hok.
  { exists []. repeat split; constructor. }
  cbn [pipeline_dump_loop]. rewrite Hres.
  set (st0 := {| c_fs := fs;
                 c_seen := read_existing_numbers fs (pipeline_list_out a);
                 c_new := 0 |}).
  destruct (region_collected (pipeline_list_out a) tok pref
              (pipeline_corporate_type a) (pipeline_page_limit a)
              (exist_flag_param (pipeline_exist_flg a))
              (pipeline_page_ceiling a) w st0) as (r1 & H1).
  destruct (iter_corporate_list _ tok pref _ _ _ _ w st0) as [[w1 st1] e].
  cbn [fst snd] in H1. apply collected_fresh in H1. cbn [c_fs c_seen st0] in H1.
  destruct e as [x|]; [exists r1; exact H1|].
  destruct (appended_fresh_nodup_free _ _ _ _ Hok H1) as (Hok1 & Hids1).
  destruct (IH w1 (c_fs st1) Hok1) as (r2 & H2).
  exists (r1 ++ r2). eapply appended_fresh_trans; [exact H1|].
  unfold read_existing_numbers in H2 |- *.
  rewrite Hids1, list_to_set_app_L in H2. exact H2.
Qed.

Lemma dump_resume_keeps (tok : string) (a : DumpArgs) (fs : gmap string csv)
    (w : World) :
  dump_resume a = true ->
  list_file_ok (fs !! dump_out a) -> NoDup (file_ids (fs !! dump_out a)) ->
  list_file_ok ((dump tok a fs w).1.1 !! dump_out a)
  /\ NoDup (file_ids ((dump tok a fs w).1.1 !! dump_out a)).
Proof.
  intros Hres Hok Hnd. destruct (dump_fresh tok a fs w) as (rows & Hf).
  rewrite Hres in Hf.
  destruct (appended_fresh_nodup _ _ _ Hok Hnd Hf) as (? & ? & _). auto.
Qed.

Lemma pipeline_resume_keeps (tok : string) (a : PipelineArgs)
    (prefs : list string) (fs : gmap string csv) (w : World) :
  pipeline_resume a = true ->
  list_file_ok (fs !! pipeline_list_out a) ->
  NoDup (file_ids (fs !! pipeline_list_out a)) ->
  list_file_ok ((pipeline_dump_loop tok a prefs w fs).1.2 !! pipeline_list_out a)
  /\ NoDup (file_ids ((pipeline_dump_loop tok a prefs w fs).1.2
                       !! pipeline_list_out a)).
Proof.
  intros Hres Hok Hnd.
  destruct (pipeline_loop_fresh tok a prefs w fs Hres Hok) as (rows & Hf).
  destruct (appended_fresh_nodup _ _ _ Hok Hnd Hf) as (? & ? & _). auto.
Qed.

(** C1, amended. The loop body skips a row whose identifier is empty or in
    the skip-set, and otherwise appends the row and puts its identifier in
    the skip-set before the next row is looked at.  So the pass over one
    region, in either mode, appends no identifier twice and none of the
    skip-set; a dump run appends no identifier twice.  The collection of a
    pipeline run that resumes and finds no list file appends no identifier
    twice, and a second one, started on the list file the first has left,
    appends no identifier twice and none that file holds.  Collecting twice
    with resume, the first time without a list file and the second time on
    the list file the first has left, leaves a list file that holds no
    identifier twice, in dump and in pipeline mode. *)
Theorem collection_appends_once (tok : string) :
  (forall dest st row cno,
      cno_of row = Ok cno ->
      (str_empty cno = true \/ cno ∈ c_seen st ->
       collect_row dest st row = (st, None))
      /\ (str_empty cno = false -> cno ∉ c_seen st ->
          exists fs' r,
            collect_row dest st row
            = ({| c_fs := fs'; c_seen := c_seen st ∪ {[cno]};
                  c_new := c_new st + 1 |}, None)
            /\ fs' !! dest = grow LIST_FIELDS (c_fs st !! dest) [r]
            /\ length r = 2%nat /\ record_id r = cno))
  /\ (forall dest pref_code corporate_type limit exist_flg max_pages w st,
      exists rows,
        collected dest st
          (iter_corporate_list (collect_row dest) tok pref_code corporate_type
             limit exist_flg max_pages w st).1.2 rows)
  /\ (forall a fs w,
      exists rows,
        appended_fresh (fs !! dump_out a) ((dump tok a fs w).1.1 !! dump_out a)
          rows
          (if dump_resume a then read_existing_numbers fs (dump_out a) else ∅))
  /\ (forall a fs w,
      pipeline_resume a = true ->
      fs !! pipeline_list_out a = None ->
      exists rows,
        appended_fresh None
          ((pipeline_dump_loop tok a (targets (pipeline_pref a)) w fs).1.2
             !! pipeline_list_out a) rows ∅)
  /\ (forall a fs w fs_mid w_mid,
      pipeline_resume a = true ->
      fs !! pipeline_list_out a = None ->
      fs_mid !! pipeline_list_out a
      = (pipeline_dump_loop tok a (targets (pipeline_pref a)) w fs).1.2
          !! pipeline_list_out a ->
      exists rows,
        appended_fresh (fs_mid !! pipeline_list_out a)
          ((pipeline_dump_loop tok a (targets (pipeline_pref a))
              w_mid fs_mid).1.2 !! pipeline_list_out a) rows
          (read_existing_numbers fs_mid (pipeline_list_out a)))
  /\ (forall a fs w fs_mid w_mid,
      dump_resume a = true ->
      fs !! dump_out a = None ->
      fs_mid !! dump_out a = (dump tok a fs w).1.1 !! dump_out a ->
      NoDup (file_ids ((dump tok a fs_mid w_mid).1.1 !! dump_out a)))
  /\ (forall a fs w fs_mid w_mid,
      pipeline_resume a = true ->
      fs !! pipeline_list_out a = None ->
      fs_mid !! pipeline_list_out a
      = (pipeline_dump_loop tok a (targets (pipeline_pref a)) w fs).1.2
          !! pipeline_list_out a ->
      NoDup (file_ids
               ((pipeline_dump_loop tok a (targets (pipeline_pref a))
                   w_mid fs_mid).1.2 !! pipeline_list_out a))).
Proof.
  assert (Hnone : list_file_ok None /\ NoDup (file_ids None)).
  { split; [exact I | constructor]. }
  destruct Hnone as [Hok0 Hnd0].
  repeat apply conj.
  - intros dest st row cno Hc. split.
    + apply collect_row_skip. exact Hc.
    + apply collect_row_appends. exact Hc.
  - intros. apply region_collected.
  - intros. apply dump_fresh.
  - intros a fs w Hres Hf.
    destruct (pipeline_loop_fresh tok a (targets (pipeline_pref a)) w fs Hres)
      as (rows & Hr); [rewrite Hf; exact Hok0|].
    unfold read_existing_numbers in Hr. rewrite Hf in Hr.
    exists rows. exact Hr.
  - intros a fs w fs_mid w_mid Hres Hf Hmid.
    apply pipeline_loop_fresh; [exact Hres|]. rewrite Hmid.
    apply (pipeline_resume_keeps tok a (targets (pipeline_pref a)) fs w Hres);
      rewrite Hf; assumption.
  - intros a fs w fs_mid w_mid Hres Hf Hmid.
    destruct (dump_resume_keeps tok a fs w Hres) as (Hok1 & Hnd1);
      [rewrite Hf; exact Hok0 | rewrite Hf; exact Hnd0 |].
    rewrite <- Hmid in Hok1, Hnd1.
    apply (dump_resume_keeps tok a fs_mid w_mid Hres Hok1 Hnd1).
  - intros a fs w fs_mid w_mid Hres Hf Hmid.
    destruct (pipeline_resume_keeps tok a (targets (pipeline_pref a)) fs w
                Hres) as (Hok1 & Hnd1);
      [rewrite Hf; exact Hok0 | rewrite Hf; exact Hnd0 |].
    rewrite <- Hmid in Hok1, Hnd1.
    apply (pipeline_resume_keeps tok a _ fs_mid w_mid Hres Hok1 Hnd1).
Qed.

(** *** Command line and exit status *)

Lemma dump_limits_clamped (a : DumpArgs) :
  1 <= dump_page_limit a <= 5000 /\ 1 <= dump_page_ceiling a <= 10.
Proof. unfold dump_page_limit, dump_page_ceiling. lia. Qed.

Lemma hydrate_row_added (tok out : string) (st st' : HydrateState)
    (row : list string * list string) (e : option exn) :
  hydrate_row tok out st row = (st', e) -> h_added st <= h_added st'.
Proof.
  intros Hrow.
  destruct (str_empty (row_cno row)) eqn:Hne.
  { rewrite hydrate_row_skip in Hrow by (left; exact Hne).
    injection Hrow as <- _. lia. }
  destruct (decide (row_cno row ∈ h_processed st)) as [Hin|Hnot].
  { rewrite hydrate_row_skip in Hrow by (right; exact Hin).
    injection Hrow as <- _. lia. }
  rewrite (hydrate_row_fetches tok out st row Hne Hnot) in Hrow.
  destruct (fetch_basic_with_session tok (h_world st) (row_cno row)).2
    as [d|x]; [|injection Hrow as <- _; cbn; lia].
  destruct d; try (injection Hrow as <- _; cbn; lia);
    destruct (append_rows out _ BASIC_FIELDS (h_fs st)) as [fs' [y|]];
    injection Hrow as <- _; cbn; lia.
Qed.

Lemma hydrate_loop_added (tok out : string)
    (rows : list (list string * list string)) (st st' : HydrateState)
    (e : option exn) :
  hydrate_loop tok out rows st = (st', e) -> h_added st <= h_added st'.
Proof.
  revert st. induction rows as [|row rest IH]; intros st Hloop.
  - injection Hloop as <- _. lia.
  - simpl in Hloop. destruct (hydrate_row tok out st row) as [st1 e1] eqn:Hrow.
    apply hydrate_row_added in Hrow.
    destruct e1 as [x|]; [injection Hloop as <- _; exact Hrow|].
    apply IH in Hloop. lia.
Qed.

Lemma _run_hydrate_added (tok infile out : string) (resume : bool)
    (fs : gmap string csv) (w : World) (n : Z) :
  (_run_hydrate tok infile out resume fs w).2 = Ok n -> 0 <= n.
Proof.
  unfold _run_hydrate. destruct (fs !! infile) as [c|];
    [|cbn; intros [= <-]; lia].
  destruct (hydrate_loop tok out (dictreader_rows c)
              (hydrate_start resume out fs w)) as [st e] eqn:Hloop.
  apply hydrate_loop_added in Hloop. cbn in Hloop |- *.
  destruct e as [x|]; [discriminate|]. intros [= <-]. exact Hloop.
Qed.

Lemma main_ending (tok : option string) (cmd : Command)
    (fs : gmap string csv) (w : World) :
  tok_missing tok = false ->
  (main tok (Accepted cmd) fs w).2 = Returns 0
  \/ exists x, (main tok (Accepted cmd) fs w).2 = Raises x.
Proof.
  intros Htok. unfold main. rewrite Htok. destruct cmd as [a|a|a|].
  - unfold dump.
    destruct (dump_loop _ a _ w _) as [[w' st] [x|]]; cbn; eauto.
  - pose proof (_run_hydrate_added (default "" tok) (hydrate_infile a)
                  (hydrate_out a) (hydrate_resume a) fs w) as Hadd.
    destruct (_run_hydrate _ _ _ _ fs w) as [st [added|x]]; cbn in *;
      [|eauto].
    specialize (Hadd added eq_refl). apply Z.leb_le in Hadd. rewrite Hadd.
    auto.
  - unfold pipeline.
    destruct (pipeline_dump_loop _ a _ w fs) as [[w1 fs1] [x|]];
      [cbn; eauto|].
    destruct (_run_hydrate _ _ _ _ fs1 w1) as [st [added|x]]; cbn; eauto.
  - cbn. auto.
Qed.

(** C8, amended. A command line the parser rejects ends the program with
    status 2, and a request for help with status 0, in both cases before the
    token is looked at, without a request and without touching a file.  For
    a command line that parses: without the token [main] returns 2 at once,
    again without a request or a file touched; with the token, whenever
    [main] returns, it returns 0, whatever errors the enrichment counted.
    The exit status is therefore other than 0 only when the command line was
    rejected (2), when the token is missing (2), or when an exception left
    [main] (1). *)
Theorem exit_status_law (tok : option string) (argv : Argv)
    (fs : gmap string csv) (w : World) :
  (argv = Rejected -> main tok argv fs w = (fs, w, Exits 2))
  /\ (argv = HelpAsked -> main tok argv fs w = (fs, w, Exits 0))
  /\ (forall cmd,
      argv = Accepted cmd -> tok_missing tok = true ->
      main tok argv fs w = (fs, w, Returns 2))
  /\ (forall cmd n,
      argv = Accepted cmd -> tok_missing tok = false ->
      (main tok argv fs w).2 = Returns n -> n = 0)
  /\ (exit_status (main tok argv fs w).2 <> 0 ->
      (argv = Rejected /\ exit_status (main tok argv fs w).2 = 2)
      \/ (exists cmd,
            argv = Accepted cmd /\ tok_missing tok = true
            /\ exit_status (main tok argv fs w).2 = 2)
      \/ (exists cmd x,
            argv = Accepted cmd /\ tok_missing tok = false
            /\ (main tok argv fs w).2 = Raises x
            /\ exit_status (main tok argv fs w).2 = 1)).
Proof.
  repeat apply conj.
  - intros ->. reflexivity.
  - intros ->. reflexivity.
  - intros cmd -> Htok. unfold main. rewrite Htok. reflexivity.
  - intros cmd n -> Htok Hn.
    destruct (main_ending tok cmd fs w Htok) as [H0 | (x & Hx)];
      congruence.
  - intros Hexit. destruct argv as [| |cmd].
    + left. split; reflexivity.
    + contradiction Hexit. reflexivity.
    + right. destruct (tok_missing tok) eqn:Htok.
      * left. exists cmd. split; [reflexivity|]. split; [reflexivity|].
        unfold main. rewrite Htok. reflexivity.
      * right. destruct (main_ending tok cmd fs w Htok) as [H0 | (x & Hx)].
        -- rewrite H0 in Hexit. contradiction Hexit. reflexivity.
        -- exists cmd, x. rewrite Hx. repeat split.
Qed.

End Properties.

(** ** Further properties of the program *)

(** *** The elapsed-time format *)

Lemma string_length_app (a b : string) :
  String.length (a +:+ b) = (String.length a + String.length b)%nat.
Proof. induction a as [|c a IH]; simpl; [reflexivity | rewrite IH; reflexivity]. Qed.

Lemma string_app_inj_tail (a1 a2 t1 t2 : string) :
  a1 +:+ t1 = a2 +:+ t2 -> String.length t1 = String.length t2 ->
  a1 = a2 /\ t1 = t2.
Proof.
  revert a2. induction a1 as [|c a1 IH]; intros [|d a2] Heq Hlen; simpl in Heq.
  - auto.
  - apply (f_equal String.length) in Heq.
    change (String.length t1
            = Datatypes.S (String.length (a2 +:+ t2))) in Heq.
    rewrite string_length_app in Heq. lia.
  - apply (f_equal String.length) in Heq.
    change (Datatypes.S (String.length (a1 +:+ t1))
            = String.length t2) in Heq.
    rewrite string_length_app in Heq. lia.
  - injection Heq as -> Heq. destruct (IH a2 Heq Hlen) as [-> ->]. auto.
Qed.

Lemma fmt_02d_table :
  NoDup (map (fun i => fmt_02d (Z.of_nat i)) (seq 0 60))
  /\ forallb (fun i => Nat.eqb (String.length (fmt_02d (Z.of_nat i))) 2)
       (seq 0 60) = true.
Proof.
  split; [|vm_compute; reflexivity].
  apply (bool_decide_unpack _). vm_compute. exact I.
Qed.

Lemma fmt_02d_length (n : Z) :
  0 <= n < 60 -> String.length (fmt_02d n) = 2%nat.
Proof.
  intros Hn. destruct fmt_02d_table as [_ Hlen].
  rewrite forallb_forall in Hlen.
  specialize (Hlen (Z.to_nat n)).
  rewrite Z2Nat.id in Hlen by lia.
  apply Nat.eqb_eq, Hlen, in_seq. lia.
Qed.

Lemma fmt_02d_inj (n1 n2 : Z) :
  0 <= n1 < 60 -> 0 <= n2 < 60 -> fmt_02d n1 = fmt_02d n2 -> n1 = n2.
Proof.
  intros H1 H2 Heq. destruct fmt_02d_table as [Hnd _].
  assert (Hl : forall n, 0 <= n < 60 ->
            map (fun i => fmt_02d (Z.of_nat i)) (seq 0 60) !! Z.to_nat n
            = Some (fmt_02d n)).
  { intros n Hn. rewrite list_lookup_fmap, lookup_seq_lt by lia.
    simpl. rewrite Z2Nat.id by lia. reflexivity. }
  pose proof (Hl n1 H1) as L1. pose proof (Hl n2 H2) as L2.
  rewrite Heq in L1.
  pose proof (NoDup_lookup _ _ _ _ Hnd L1 L2). lia.
Qed.

Lemma hms_fields_range (n : Z) :
  0 <= n mod 3600 / 60 < 60 /\ 0 <= n mod 3600 mod 60 < 60
  /\ n / 3600 * 3600 + n mod 3600 / 60 * 60 + n mod 3600 mod 60 = n.
Proof.
  pose proof (Z.mod_pos_bound n 3600 ltac:(lia)) as Hr.
  pose proof (Z.div_mod n 3600 ltac:(lia)) as Hd.
  pose proof (Z.div_mod (n mod 3600) 60 ltac:(lia)) as Hd2.
  pose proof (Z.mod_pos_bound (n mod 3600) 60 ltac:(lia)) as Hs.
  assert (0 <= n mod 3600 / 60 < 60).
  { split; [apply Z.div_pos; lia | apply Z.div_lt_upper_bound; lia]. }
  lia.
Qed.

(** X1. Whatever the number of seconds, [_fmt_hms] prints [h:mm:ss] where
    the minutes and the seconds are two characters each and lie in 0..59,
    and the three fields add up to the whole seconds of its argument. *)
Theorem fmt_hms_fields (seconds : Q) :
  exists h m s,
    _fmt_hms seconds = pretty h +:+ ":" +:+ fmt_02d m +:+ ":" +:+ fmt_02d s
    /\ 0 <= m < 60 /\ 0 <= s < 60
    /\ h * 3600 + m * 60 + s = py_int seconds
    /\ String.length (fmt_02d m) = 2%nat /\ String.length (fmt_02d s) = 2%nat.
Proof.
  destruct (hms_fields_range (py_int seconds)) as (Hm & Hs & Hsum).
  exists (py_int seconds / 3600), (py_int seconds mod 3600 / 60),
         (py_int seconds mod 3600 mod 60).
  split; [reflexivity|]. repeat split; try lia; apply fmt_02d_length; lia.
Qed.

(** X2. Two arguments that [_fmt_hms] prints alike have the same whole
    seconds: the text determines the duration. *)
Theorem fmt_hms_inj (x y : Q) :
  _fmt_hms x = _fmt_hms y -> py_int x = py_int y.
Proof.
  unfold _fmt_hms. cbn zeta. intros Heq.
  destruct (hms_fields_range (py_int x)) as (Hm1 & Hs1 & Hsum1).
  destruct (hms_fields_range (py_int y)) as (Hm2 & Hs2 & Hsum2).
  apply string_app_inj_tail in Heq as [Hh Heq].
  2:{ rewrite !string_length_app, !fmt_02d_length by lia. reflexivity. }
  apply string_app_inj_tail in Heq as [_ Heq].
  2:{ rewrite !string_length_app, !fmt_02d_length by lia. reflexivity. }
  apply string_app_inj_tail in Heq as [Hm Heq].
  2:{ rewrite !string_length_app, !fmt_02d_length by lia. reflexivity. }
  apply string_app_inj_tail in Heq as [_ Hs].
  2:{ rewrite !fmt_02d_length by lia. reflexivity. }
  apply pretty_Z_inj in Hh.
  apply fmt_02d_inj in Hm; [|lia|lia].
  apply fmt_02d_inj in Hs; [|lia|lia].
  lia.
Qed.

Section MoreProperties.
Context `{Environment}.

(** *** The HTTP helpers *)

(** X4. The two detail lookups agree on every answer of the service whose
    status is neither 404 nor one of the retried statuses.  A 404 is an HTTP
    error for [fetch_basic] and "no record" for
    [fetch_basic_with_session]; a retried status that outlasts the retries
    is a [RetryError] for [fetch_basic], whose adapter raises on it, and an
    HTTP error for [fetch_basic_with_session], whose adapter hands the
    answer back. *)
Theorem fetch_basic_variants (tok : string) (w : World) (cno : string) :
  (forall status_code text body,
      server w (DetailReq tok (strip cno)) = Response status_code text body ->
      status_code <> 404 -> retried status_code = false ->
      fetch_basic tok w cno = fetch_basic_with_session tok w cno)
  /\ (forall text body,
      server w (DetailReq tok (strip cno)) = Response 404 text body ->
      fetch_basic tok w cno
      = (DetailReq tok (strip cno) :: w, Raise (http_error 404 text))
      /\ fetch_basic_with_session tok w cno
         = (DetailReq tok (strip cno) :: w, Ok JNull))
  /\ (forall status_code text body,
      server w (DetailReq tok (strip cno)) = Response status_code text body ->
      retried status_code = true ->
      fetch_basic tok w cno
      = (DetailReq tok (strip cno) :: w, Raise RetryError)
      /\ fetch_basic_with_session tok w cno
         = (DetailReq tok (strip cno) :: w,
            Raise (http_error status_code text))).
Proof.
  split; [|split].
  - intros st text body Hs Hne Hret.
    unfold fetch_basic, fetch_basic_with_session, _get_json, session_get, send.
    rewrite Hs, Hret. cbn [andb].
    destruct (Z.eqb_spec st 204) as [->|H204]; [reflexivity|].
    destruct (Z.eqb_spec st 200) as [->|H200]; cbn [negb].
    + destruct body; reflexivity.
    + destruct (Z.eqb_spec st 404) as [->|_]; [contradiction|]. reflexivity.
  - intros text body Hs.
    unfold fetch_basic, fetch_basic_with_session, _get_json, session_get, send.
    rewrite Hs. split; reflexivity.
  - intros st text body Hs Hret.
    unfold fetch_basic, fetch_basic_with_session, _get_json, session_get, send.
    rewrite Hs, Hret. cbn [andb]. split; [reflexivity|].
    unfold retried in Hret. apply existsb_exists in Hret as (x & Hin & Heq).
    apply Z.eqb_eq in Heq. subst x.
    cbn in Hin.
    destruct Hin as [<-|[<-|[<-|[<-|[<-|[]]]]]]; reflexivity.
Qed.

(** *** The resume scan and the writer *)

Lemma strip_empty : strip "" = "".
Proof. reflexivity. Qed.

Lemma file_ids_spec (f : option csv) (c : string) :
  c ∈ file_ids f -> c <> "" /\ strip c = c.
Proof.
  unfold file_ids. destruct f as [rows|]; [|intros Hc; inversion Hc].
  intros Hc. apply list_elem_of_In, filter_In in Hc as [Hin Hne].
  apply in_map_iff in Hin as (nr & <- & _).
  split; [apply str_empty_false, negb_true_iff; exact Hne|].
  apply row_cno_stripped.
Qed.

(** X5. The resume scan of a path that does not exist is the empty set, and
    the set it builds from a file never holds the empty string or an
    identifier with white space around it. *)
Theorem read_existing_numbers_clean (fs : gmap string csv) (path : string) :
  (fs !! path = None -> read_existing_numbers fs path = ∅)
  /\ (forall c, c ∈ read_existing_numbers fs path -> c <> "" /\ strip c = c).
Proof.
  unfold read_existing_numbers. split.
  - intros ->. reflexivity.
  - intros c Hc. apply elem_of_list_to_set in Hc.
    exact (file_ids_spec _ c Hc).
Qed.

Lemma zip_last_absent (k : string) (names row : list string)
    (acc : option string) :
  k ∉ names -> zip_last k names row acc = acc.
Proof.
  revert row acc. induction names as [|n names IH]; intros row acc Hk;
    [destruct row; reflexivity|].
  destruct row as [|c row]; [reflexivity|]. cbn [zip_last].
  apply not_elem_of_cons in Hk as [Hne Hk].
  destruct (String.eqb_spec k n) as [->|_]; [contradiction|].
  apply IH. exact Hk.
Qed.

Lemma dictreader_get_absent (names row : list string) (k : string) :
  k ∉ names -> dictreader_get names row k = None.
Proof.
  intros Hk. unfold dictreader_get.
  destruct (existsb (String.eqb k) (drop (length row) names)); [reflexivity|].
  apply zip_last_absent. exact Hk.
Qed.

(** X6. A file whose first record does not name the column
    [corporate_number], and a file without any record, give the empty
    resume set, whatever rows follow. *)
Theorem read_existing_numbers_no_column (fs : gmap string csv)
    (path : string) (c : csv) :
  fs !! path = Some c ->
  (forall names, head c = Some names -> "corporate_number" ∉ names) ->
  read_existing_numbers fs path = ∅.
Proof.
  intros Hf Hcol. unfold read_existing_numbers. rewrite Hf.
  assert (Hids : file_ids (Some c) = []); [|rewrite Hids; reflexivity].
  unfold file_ids. destruct c as [|names recs]; [reflexivity|].
  specialize (Hcol names eq_refl). cbn [dictreader_rows].
  induction (List.filter nonblank recs) as [|r rs IH]; [reflexivity|].
  cbn [map List.filter]. unfold row_cno at 1. cbn [fst snd].
  rewrite (dictreader_get_absent names r _ Hcol). cbn [default].
  rewrite strip_empty. cbn [str_empty negb]. exact IH.
Qed.

Lemma zip_last_written (k : string) (header : list string)
    (g : string -> string) (acc : option string) :
  k ∈ header -> zip_last k header (map g header) acc = Some (g k).
Proof.
  revert acc. induction header as [|n rest IH]; intros acc Hk;
    [inversion Hk|].
  cbn [map zip_last].
  destruct (decide (k ∈ rest)) as [Hin|Hout]; [apply IH; exact Hin|].
  rewrite zip_last_absent by exact Hout.
  apply elem_of_cons in Hk as [->|Hin]; [|contradiction].
  rewrite String.eqb_refl. reflexivity.
Qed.

Lemma dictreader_get_written (k : string) (header : list string)
    (g : string -> string) :
  k ∈ header -> dictreader_get header (map g header) k = Some (g k).
Proof.
  intros Hk. unfold dictreader_get.
  rewrite length_map, drop_all. cbn [existsb].
  apply zip_last_written. exact Hk.
Qed.

Lemma written_rows_scanned (header : list string)
    (records : list (list (string * json))) :
  "corporate_number" ∈ header ->
  List.filter (fun c => negb (str_empty c))
    (map row_cno
       (map (fun r => (header, r))
          (List.filter nonblank (map (csv_row header) records))))
  = List.filter (fun c => negb (str_empty c))
      (map (fun kv =>
              strip (csv_cell (default (JStr "")
                                 (assoc "corporate_number" kv)))) records).
Proof.
  intros Hk. induction records as [|kv rest IH]; [reflexivity|].
  cbn [map List.filter].
  assert (Hnb : nonblank (csv_row header kv) = true).
  { unfold csv_row. destruct header; [inversion Hk | reflexivity]. }
  rewrite Hnb. cbn [map List.filter].
  assert (Hid : row_cno (header, csv_row header kv)
                = strip (csv_cell (default (JStr "")
                                     (assoc "corporate_number" kv)))).
  { unfold row_cno, csv_row. cbn [fst snd].
    rewrite (dictreader_get_written "corporate_number" header
               (fun k => csv_cell (default (JStr "") (assoc k kv))) Hk).
    reflexivity. }
  rewrite Hid, IH. reflexivity.
Qed.

Lemma append_rows_dicts_fs (path : string)
    (records : list (list (string * json))) (header : list string)
    (fs : gmap string csv) :
  (append_rows path (map JObj records) header fs).1
  = <[path := match fs !! path with
              | None => header :: map (csv_row header) records
              | Some c => c ++ map (csv_row header) records
              end]> fs.
Proof.
  unfold append_rows. rewrite write_rows_dicts. cbn [fst].
  destruct (fs !! path); reflexivity.
Qed.

(** X7. What [append_rows] writes, [read_existing_numbers] reads back.
    When the column list names [corporate_number] and the file is not
    there, the scan after an append of dict records is the set of their
    non-empty stripped identifiers; and a second append to the file the
    first one made adds the non-empty stripped identifiers of its own
    records to what the scan gave. *)
Theorem append_then_scan (path : string)
    (records more : list (list (string * json))) (header : list string)
    (fs : gmap string csv) :
  "corporate_number" ∈ header ->
  fs !! path = None ->
  let ids := fun recs : list (list (string * json)) =>
    List.filter (fun c => negb (str_empty c))
      (map (fun kv =>
              strip (csv_cell (default (JStr "")
                                 (assoc "corporate_number" kv)))) recs) in
  let fs1 := (append_rows path (map JObj records) header fs).1 in
  read_existing_numbers fs1 path = list_to_set (ids records)
  /\ read_existing_numbers (append_rows path (map JObj more) header fs1).1 path
     = read_existing_numbers fs1 path ∪ list_to_set (ids more).
Proof.
  intros Hk Hf ids fs1. subst ids fs1. unfold read_existing_numbers.
  rewrite !append_rows_dicts_fs, !lookup_insert_eq. unfold csv in *.
  rewrite Hf.
  pose proof (written_rows_scanned header records Hk) as Hw.
  pose proof (written_rows_scanned header more Hk) as Hm.
  split.
  - unfold file_ids. cbn [dictreader_rows]. rewrite Hw. reflexivity.
  - rewrite <- list_to_set_app_L. f_equal.
    unfold file_ids. cbn [app dictreader_rows].
    rewrite List.filter_app, !map_app, List.filter_app, Hm. reflexivity.
Qed.

Lemma append_rows_effect (path : string) (rows : list json)
    (header : list string) (fs : gmap string csv) :
  is_Some ((append_rows path rows header fs).1 !! path)
  /\ (forall c, fs !! path = Some c ->
        exists extra, (append_rows path rows header fs).1 !! path
                      = Some (c ++ extra))
  /\ (forall p, p <> path ->
        (append_rows path rows header fs).1 !! p = fs !! p).
Proof.
  unfold append_rows. destruct (write_rows header rows) as [written e].
  cbn [fst]. split; [|split].
  - rewrite lookup_insert_eq. eauto.
  - intros c Hc. rewrite lookup_insert_eq, Hc. eauto.
  - intros p Hp. apply lookup_insert_ne. congruence.
Qed.

Lemma write_rows_stops (header : list string)
    (records : list (list (string * json))) (bad : json) (rest : list json) :
  header <> [] ->
  is_obj bad = false ->
  write_rows header (map JObj records ++ bad :: rest)
  = (map (csv_row header) records, Some AttributeError).
Proof.
  intros Hh Hbad. induction records as [|kv recs IH].
  - destruct header as [|k ks]; [contradiction|].
    destruct bad; try reflexivity. discriminate Hbad.
  - cbn [map app write_rows]. rewrite IH. reflexivity.
Qed.

Lemma append_rows_refuses (path : string)
    (records : list (list (string * json))) (bad : json) (rest : list json)
    (header : list string) (fs : gmap string csv) :
  header <> [] ->
  is_obj bad = false ->
  append_rows path (map JObj records ++ bad :: rest) header fs
  = ((append_rows path (map JObj records) header fs).1, Some AttributeError).
Proof.
  intros Hh Hbad. unfold append_rows.
  rewrite (write_rows_stops header records bad rest Hh Hbad), write_rows_dicts.
  reflexivity.
Qed.

(** X9. With at least one column to write, a row that is not a dict stops
    [append_rows] with an [AttributeError]: the rows before it are written
    as if they had been the whole call, the rows after it are not written.
    With no column at all no row is ever asked for a value: nothing is
    raised, and every row, dict or not, is written as an empty record. *)
Theorem append_rows_stops_at_non_dict (path : string)
    (records : list (list (string * json))) (bad : json) (rest : list json)
    (header : list string) (fs : gmap string csv) :
  is_obj bad = false ->
  (header <> [] ->
   append_rows path (map JObj records ++ bad :: rest) header fs
   = ((append_rows path (map JObj records) header fs).1,
      Some AttributeError))
  /\ (header = [] ->
      append_rows path (map JObj records ++ bad :: rest) header fs
      = (<[path := match fs !! path with
                   | None => [] :: map (fun _ => [])
                                     (map JObj records ++ bad :: rest)
                   | Some c => c ++ map (fun _ => [])
                                      (map JObj records ++ bad :: rest)
                   end]> fs, None)).
Proof.
  intros Hbad. split.
  - intros Hh. unfold append_rows.
    assert (Hw : write_rows header (map JObj records ++ bad :: rest)
                 = (map (csv_row header) records, Some AttributeError)).
    { induction records as [|kv recs IH].
      - destruct header as [|k ks]; [contradiction|].
        destruct bad; try reflexivity. discriminate Hbad.
      - cbn [map app write_rows]. rewrite IH. reflexivity. }
    rewrite Hw, write_rows_dicts. reflexivity.
  - intros ->. unfold append_rows.
    assert (Hw : forall rows, write_rows [] rows
                              = (map (fun _ : json => @nil string) rows, None)).
    { induction rows as [|row rows IH]; [reflexivity|].
      cbn [write_rows map]. rewrite IH. destruct row; reflexivity. }
    rewrite Hw. destruct (fs !! path); reflexivity.
Qed.

(** X10. Appending records in two calls leaves the file system as appending
    them all in one call does: the header is written by the first call at
    most. *)
Theorem append_rows_twice (path : string)
    (r1 r2 : list (list (string * json))) (header : list string)
    (fs : gmap string csv) :
  (append_rows path (map JObj r2) header
     (append_rows path (map JObj r1) header fs).1).1
  = (append_rows path (map JObj (r1 ++ r2)) header fs).1.
Proof.
  rewrite !append_rows_dicts_fs, lookup_insert_eq, insert_insert_eq.
  f_equal. rewrite map_app.
  destruct (fs !! path); [rewrite <- app_assoc|]; reflexivity.
Qed.

(** *** The enrichment runner, row by row *)

(** The four ways a row of the loop can end: skipped; fetched without a
    record (an error or "not found"); fetched and appended; fetched with
    something that is not a dict, which [append_rows] refuses. *)
Lemma hydrate_row_effect (tok out : string) (st st' : HydrateState)
    (row : list string * list string) (e : option exn) :
  hydrate_row tok out st row = (st', e) ->
  (st' = st /\ e = None)
  \/ (e = None
      /\ h_world st' = DetailReq tok (row_cno row) :: h_world st
      /\ row_cno row <> ""
      /\ h_fs st' = h_fs st /\ h_processed st' = h_processed st
      /\ h_added st' = h_added st /\ h_done st' = h_done st + 1
      /\ (h_errors st' = h_errors st \/ h_errors st' = h_errors st + 1))
  \/ (e = None
      /\ h_world st' = DetailReq tok (row_cno row) :: h_world st
      /\ row_cno row <> ""
      /\ (row_cno row ∉ h_processed st)
      /\ h_processed st' = h_processed st ∪ {[row_cno row]}
      /\ h_added st' = h_added st + 1 /\ h_done st' = h_done st + 1
      /\ h_errors st' = h_errors st
      /\ exists kv,
           h_fs st' = (append_rows out [JObj kv] BASIC_FIELDS (h_fs st)).1)
  \/ (e = Some AttributeError
      /\ h_world st' = DetailReq tok (row_cno row) :: h_world st
      /\ row_cno row <> ""
      /\ h_processed st' = h_processed st
      /\ h_added st' = h_added st /\ h_done st' = h_done st
      /\ h_errors st' = h_errors st
      /\ h_fs st' = (append_rows out [] BASIC_FIELDS (h_fs st)).1).
Proof.
  intros Hrow.
  destruct (str_empty (row_cno row)) eqn:Hne.
  { rewrite hydrate_row_skip in Hrow by (left; exact Hne).
    injection Hrow as <- <-. left. auto. }
  destruct (decide (row_cno row ∈ h_processed st)) as [Hin|Hnot].
  { rewrite hydrate_row_skip in Hrow by (right; exact Hin).
    injection Hrow as <- <-. left. auto. }
  right. rewrite (hydrate_row_fetches tok out st row Hne Hnot) in Hrow.
  unfold after_fetch_error in Hrow. rewrite row_cno_stripped in Hrow.
  apply str_empty_false in Hne.
  assert (Hbad : forall d, is_obj d = false -> d <> JNull ->
            append_rows out [d] BASIC_FIELDS (h_fs st)
            = ((append_rows out [] BASIC_FIELDS (h_fs st)).1,
               Some AttributeError)).
  { intros d Hd _.
    exact (append_rows_refuses out [] d [] BASIC_FIELDS (h_fs st)
             ltac:(discriminate) Hd). }
  destruct (fetch_basic_with_session tok (h_world st) (row_cno row)).2
    as [d|x] eqn:Hf.
  2:{ injection Hrow as <- <-. left. cbn. repeat split; auto. }
  destruct d as [| b | n | s | l | kv].
  - injection Hrow as <- <-. left. cbn. repeat split; auto.
  - rewrite Hbad in Hrow by (reflexivity || discriminate).
    injection Hrow as <- <-. right. right. cbn. repeat split; auto.
  - rewrite Hbad in Hrow by (reflexivity || discriminate).
    injection Hrow as <- <-. right. right. cbn. repeat split; auto.
  - rewrite Hbad in Hrow by (reflexivity || discriminate).
    injection Hrow as <- <-. right. right. cbn. repeat split; auto.
  - rewrite Hbad in Hrow by (reflexivity || discriminate).
    injection Hrow as <- <-. right. right. cbn. repeat split; auto.
  - rewrite append_rows_one_dict in Hrow.
    injection Hrow as <- <-. right. left.
    repeat (split; [solve [auto]|]).
    exists kv. rewrite append_rows_one_dict. reflexivity.
Qed.

Lemma extends_refl (fs : gmap string csv) : extends fs fs.
Proof. intros p c Hc. exists []. rewrite app_nil_r. exact Hc. Qed.

Lemma extends_trans (a b c : gmap string csv) :
  extends a b -> extends b c -> extends a c.
Proof.
  intros Hab Hbc p x Hx. destruct (Hab p x Hx) as (e1 & H1).
  destruct (Hbc p _ H1) as (e2 & H2). exists (e1 ++ e2).
  rewrite H2, app_assoc. reflexivity.
Qed.

Lemma append_rows_extends (path : string) (rows : list json)
    (header : list string) (fs : gmap string csv) :
  extends fs (append_rows path rows header fs).1.
Proof.
  destruct (append_rows_effect path rows header fs) as (_ & Hpre & Hother).
  intros p c Hc. destruct (decide (p = path)) as [->|Hp].
  - apply Hpre. exact Hc.
  - exists []. rewrite Hother, app_nil_r by exact Hp. exact Hc.
Qed.

(** The requests and the counters of the loop. *)
Lemma hydrate_loop_counts (tok out : string)
    (rows : list (list string * list string)) (st st' : HydrateState)
    (e : option exn) :
  hydrate_loop tok out rows st = (st', e) ->
  exists new,
    h_world st' = new ++ h_world st
    /\ Forall (fun r => exists row, row ∈ rows
                          /\ r = DetailReq tok (row_cno row)
                          /\ row_cno row <> "") new
    /\ (length new <= length rows)%nat
    /\ h_added st <= h_added st' /\ h_errors st <= h_errors st'
    /\ (h_added st' - h_added st) + (h_errors st' - h_errors st)
       <= h_done st' - h_done st
    /\ h_done st' - h_done st <= Z.of_nat (length new)
       <= h_done st' - h_done st + 1
    /\ (e = None -> Z.of_nat (length new) = h_done st' - h_done st).
Proof.
  revert st. induction rows as [|row rest IH]; intros st Hloop.
  { injection Hloop as <- <-. exists []. cbn.
    repeat (split; [solve [auto; lia]|]). intros _. lia. }
  cbn [hydrate_loop] in Hloop.
  destruct (hydrate_row tok out st row) as [st1 e1] eqn:Hrow.
  assert (Hstep : exists new1,
    h_world st1 = new1 ++ h_world st
    /\ Forall (fun r => r = DetailReq tok (row_cno row)
                        /\ row_cno row <> "") new1
    /\ (length new1 <= 1)%nat
    /\ h_added st <= h_added st1 /\ h_errors st <= h_errors st1
    /\ (h_added st1 - h_added st) + (h_errors st1 - h_errors st)
       <= h_done st1 - h_done st
    /\ h_done st1 - h_done st <= Z.of_nat (length new1)
       <= h_done st1 - h_done st + 1
    /\ (e1 = None -> Z.of_nat (length new1) = h_done st1 - h_done st)).
  { destruct (hydrate_row_effect tok out st st1 row e1 Hrow)
      as [(-> & ->)
         | [(-> & Hw & Hne & _ & _ & Ha & Hd & He)
           | [(-> & Hw & Hne & _ & _ & Ha & Hd & He & _)
             | (-> & Hw & Hne & _ & Ha & Hd & He & _)]]].
    - exists []. cbn. repeat (split; [solve [auto; lia]|]). intros _. lia.
    - exists [DetailReq tok (row_cno row)]. cbn [length app].
      split; [exact Hw|]. split; [repeat constructor; auto|].
      repeat (split; [solve [auto; lia]|]). intros _. lia.
    - exists [DetailReq tok (row_cno row)]. cbn [length app].
      split; [exact Hw|]. split; [repeat constructor; auto|].
      repeat (split; [solve [auto; lia]|]). intros _. lia.
    - exists [DetailReq tok (row_cno row)]. cbn [length app].
      split; [exact Hw|]. split; [repeat constructor; auto|].
      repeat (split; [solve [auto; lia]|]). discriminate. }
  destruct Hstep as (new1 & Hw1 & Hall1 & Hlen1 & Ha1 & He1 & Hsum1 & Hd1 & Hn1).
  assert (Hall1' : Forall (fun r => exists row0, row0 ∈ row :: rest
                              /\ r = DetailReq tok (row_cno row0)
                              /\ row_cno row0 <> "") new1).
  { eapply Forall_impl; [exact Hall1|]. intros r (-> & Hne).
    exists row. split; [left|auto]. }
  destruct e1 as [x|].
  { injection Hloop as <- <-. exists new1. cbn [length].
    split; [exact Hw1|]. split; [exact Hall1'|].
    repeat (split; [solve [auto; lia]|]). discriminate. }
  specialize (Hn1 eq_refl).
  destruct (IH st1 Hloop)
    as (new2 & Hw2 & Hall2 & Hlen2 & Ha2 & He2 & Hsum2 & Hd2 & Hn2).
  exists (new2 ++ new1). rewrite length_app. cbn [length].
  split; [rewrite Hw2, Hw1, app_assoc; reflexivity|].
  split.
  { apply Forall_app. split; [|exact Hall1'].
    eapply Forall_impl; [exact Hall2|].
    intros r (row0 & Hin & Hr & Hne). exists row0.
    split; [right; exact Hin|auto]. }
  repeat (split; [solve [auto; lia]|]).
  intros He. specialize (Hn2 He). lia.
Qed.

Lemma grow_one_dict (out : string) (kv : list (string * json))
    (fs : gmap string csv) :
  (append_rows out [JObj kv] BASIC_FIELDS fs).1 !! out
  = grow BASIC_FIELDS (fs !! out) [csv_row BASIC_FIELDS kv].
Proof.
  rewrite append_rows_one_dict. cbn [fst]. rewrite lookup_insert_eq.
  destruct (fs !! out); reflexivity.
Qed.

(** The files and the resume set of the loop. *)
Lemma hydrate_loop_files (tok out : string)
    (rows : list (list string * list string)) (st st' : HydrateState)
    (e : option exn) :
  hydrate_loop tok out rows st = (st', e) ->
  exists appended : csv,
    h_added st' = h_added st + Z.of_nat (length appended)
    /\ Forall (fun r => length r = 11%nat) appended
    /\ (e = None ->
        h_fs st' !! out = grow BASIC_FIELDS (h_fs st !! out) appended)
    /\ (forall p, p <> out -> h_fs st' !! p = h_fs st !! p)
    /\ extends (h_fs st) (h_fs st')
    /\ size (h_processed st')
       = (size (h_processed st) + length appended)%nat.
Proof.
  revert st. induction rows as [|row rest IH]; intros st Hloop.
  { injection Hloop as <- <-. exists []. cbn.
    split; [lia|]. split; [constructor|]. split; [reflexivity|].
    split; [reflexivity|]. split; [apply extends_refl|lia]. }
  cbn [hydrate_loop] in Hloop.
  destruct (hydrate_row tok out st row) as [st1 e1] eqn:Hrow.
  assert (Hstep : exists a1 : csv,
    h_added st1 = h_added st + Z.of_nat (length a1)
    /\ Forall (fun r => length r = 11%nat) a1
    /\ (e1 = None -> h_fs st1 !! out = grow BASIC_FIELDS (h_fs st !! out) a1)
    /\ (forall p, p <> out -> h_fs st1 !! p = h_fs st !! p)
    /\ extends (h_fs st) (h_fs st1)
    /\ size (h_processed st1) = (size (h_processed st) + length a1)%nat).
  { destruct (hydrate_row_effect tok out st st1 row e1 Hrow)
      as [(-> & ->)
         | [(-> & _ & _ & Hfs & Hp & Ha & _)
           | [(-> & _ & _ & Hnot & Hp & Ha & _ & _ & kv & Hfs)
             | (-> & _ & _ & Hp & Ha & _ & _ & Hfs)]]].
    - exists []. cbn. split; [lia|]. split; [constructor|].
      split; [reflexivity|]. split; [reflexivity|].
      split; [apply extends_refl|lia].
    - exists []. cbn. rewrite Hfs, Hp. split; [lia|]. split; [constructor|].
      split; [reflexivity|]. split; [reflexivity|].
      split; [apply extends_refl|lia].
    - exists [csv_row BASIC_FIELDS kv]. cbn [length]. rewrite Hfs, Hp.
      split; [lia|]. split; [repeat constructor|].
      split; [intros _; apply grow_one_dict|].
      split; [apply append_rows_effect|].
      split; [apply append_rows_extends|].
      rewrite size_union by (apply disjoint_singleton_r; exact Hnot).
      rewrite size_singleton. lia.
    - exists []. cbn [length]. rewrite Hfs, Hp.
      split; [lia|]. split; [constructor|]. split; [discriminate|].
      split; [apply append_rows_effect|].
      split; [apply append_rows_extends|lia]. }
  destruct Hstep as (a1 & Ha1 & Hl1 & Hg1 & Ho1 & Hx1 & Hs1).
  destruct e1 as [x|].
  { injection Hloop as <- <-. exists a1.
    split; [exact Ha1|]. split; [exact Hl1|]. split; [discriminate|].
    split; [exact Ho1|]. split; [exact Hx1|exact Hs1]. }
  destruct (IH st1 Hloop) as (a2 & Ha2 & Hl2 & Hg2 & Ho2 & Hx2 & Hs2).
  exists (a1 ++ a2). rewrite length_app.
  split; [lia|]. split; [apply Forall_app; auto|].
  split.
  { intros He. rewrite (Hg2 He), (Hg1 eq_refl). apply grow_app. }
  split; [intros p Hp; rewrite (Ho2 p Hp); apply Ho1; exact Hp|].
  split; [eapply extends_trans; eassumption|lia].
Qed.

Lemma _run_hydrate_loop (tok infile out : string) (resume : bool)
    (fs : gmap string csv) (w : World) :
  _run_hydrate tok infile out resume fs w
  = let '(st, e) :=
      hydrate_loop tok out (input_rows fs infile)
        (hydrate_start resume out fs w) in
    (st, match e with Some x => Raise x | None => Ok (h_added st) end).
Proof.
  unfold _run_hydrate, input_rows. destruct (fs !! infile); reflexivity.
Qed.

(** X11. The counters of an enrichment run: neither the added rows nor the
    errors are negative, together they do not exceed the rows done, and the
    rows done are the requests made, short of one when an exception ended
    the run.  A run that returns gives back its count of added rows. *)
Theorem run_hydrate_counters (tok infile out : string) (resume : bool)
    (fs : gmap string csv) (w : World) :
  let st := (_run_hydrate tok infile out resume fs w).1 in
  0 <= h_added st /\ 0 <= h_errors st
  /\ h_added st + h_errors st <= h_done st
  /\ h_done st <= Z.of_nat (length (issued w (h_world st))) <= h_done st + 1
  /\ (forall n,
        (_run_hydrate tok infile out resume fs w).2 = Ok n ->
        n = h_added st
        /\ Z.of_nat (length (issued w (h_world st))) = h_done st).
Proof.
  rewrite _run_hydrate_loop.
  destruct (hydrate_loop tok out (input_rows fs infile)
              (hydrate_start resume out fs w)) as [st e] eqn:Hloop.
  destruct (hydrate_loop_counts tok out _ _ _ _ Hloop)
    as (new & Hw & _ & _ & Ha & He & Hsum & Hd & Hn).
  cbn [fst snd h_world h_added h_errors h_done hydrate_start] in *.
  rewrite Hw, issued_app.
  repeat (split; [lia|]).
  intros n Hr. destruct e as [x|]; [discriminate Hr|].
  injection Hr as <-. specialize (Hn eq_refl). lia.
Qed.

(** X12. An enrichment run whose input is not the file it appends to calls
    the detail endpoint alone, at most once per row of its input, and each
    time for the non-empty stripped identifier of one of these rows. *)
Theorem run_hydrate_requests (tok infile out : string) (resume : bool)
    (fs : gmap string csv) (w : World) :
  infile <> out ->
  let w' := h_world (_run_hydrate tok infile out resume fs w).1 in
  w' = issued w w' ++ w
  /\ Forall (fun r => exists row, row ∈ input_rows fs infile
                        /\ r = DetailReq tok (row_cno row)
                        /\ row_cno row <> "") (issued w w')
  /\ (length (issued w w') <= length (input_rows fs infile))%nat.
Proof.
  intros _. rewrite _run_hydrate_loop.
  destruct (hydrate_loop tok out (input_rows fs infile)
              (hydrate_start resume out fs w)) as [st e] eqn:Hloop.
  destruct (hydrate_loop_counts tok out _ _ _ _ Hloop)
    as (new & Hw & Hall & Hlen & _).
  cbn [fst h_world hydrate_start] in *. rewrite Hw, issued_app. auto.
Qed.

(** X13. An enrichment run touches its output file alone and only appends
    to it; when it returns [n], it has appended exactly [n] rows, of 11
    cells each, after the header if the file was not there. *)
Theorem run_hydrate_output (tok infile out : string) (resume : bool)
    (fs : gmap string csv) (w : World) :
  let fs' := h_fs (_run_hydrate tok infile out resume fs w).1 in
  (forall n,
      (_run_hydrate tok infile out resume fs w).2 = Ok n ->
      exists rows : csv,
        Z.of_nat (length rows) = n
        /\ Forall (fun r => length r = 11%nat) rows
        /\ fs' !! out = grow BASIC_FIELDS (fs !! out) rows)
  /\ (forall p, p <> out -> fs' !! p = fs !! p)
  /\ extends fs fs'.
Proof.
  rewrite _run_hydrate_loop.
  destruct (hydrate_loop tok out (input_rows fs infile)
              (hydrate_start resume out fs w)) as [st e] eqn:Hloop.
  destruct (hydrate_loop_files tok out _ _ _ _ Hloop)
    as (rows & Ha & Hl & Hg & Ho & Hx & _).
  cbn [fst snd h_fs h_added hydrate_start] in *.
  split; [|split; assumption].
  intros n Hr. destruct e as [x|]; [discriminate Hr|].
  injection Hr as <-. exists rows. split; [lia|]. split; [exact Hl|].
  apply Hg. reflexivity.
Qed.

(** X14. Every row an enrichment run adds marks an identifier that was not
    in the resume set: the set ends with as many more identifiers as rows
    were added. *)
Theorem run_hydrate_marks (tok infile out : string) (resume : bool)
    (fs : gmap string csv) (w : World) :
  let st := (_run_hydrate tok infile out resume fs w).1 in
  Z.of_nat (size (h_processed st))
  = Z.of_nat (size (if resume then read_existing_numbers fs out
                    else (∅ : gset string)))
    + h_added st.
Proof.
  rewrite _run_hydrate_loop.
  destruct (hydrate_loop tok out (input_rows fs infile)
              (hydrate_start resume out fs w)) as [st e] eqn:Hloop.
  destruct (hydrate_loop_files tok out _ _ _ _ Hloop)
    as (rows & Ha & _ & _ & _ & _ & Hs).
  cbn [fst h_processed h_added hydrate_start] in *. lia.
Qed.

(** *** Collection: files and requests *)

Lemma appends_to_refl (dest : string) (fs : gmap string csv) :
  appends_to dest fs fs.
Proof. split; [reflexivity | apply extends_refl]. Qed.

Lemma appends_to_trans (dest : string) (a b c : gmap string csv) :
  appends_to dest a b -> appends_to dest b c -> appends_to dest a c.
Proof.
  intros [Ho1 Hx1] [Ho2 Hx2]. split.
  - intros p Hp. rewrite (Ho2 p Hp). apply Ho1. exact Hp.
  - eapply extends_trans; eassumption.
Qed.

Lemma collect_row_frame (dest : string) (st st' : CollectState) (row : json)
    (e : option exn) :
  collect_row dest st row = (st', e) -> appends_to dest (c_fs st) (c_fs st').
Proof.
  unfold collect_row. destruct (cno_of row) as [cno|x].
  2:{ intros [= <- _]. apply appends_to_refl. }
  destruct (str_empty cno || bool_decide (cno ∈ c_seen st)).
  { intros [= <- _]. apply appends_to_refl. }
  pose proof (append_rows_effect dest [row] LIST_FIELDS (c_fs st))
    as (_ & _ & Ho).
  pose proof (append_rows_extends dest [row] LIST_FIELDS (c_fs st)) as Hx.
  destruct (append_rows dest [row] LIST_FIELDS (c_fs st)) as [fs' [x|]];
    intros [= <- _]; split; assumption.
Qed.

Lemma region_frame (dest tok pref_code corporate_type : string) (limit : Z)
    (exist_flg : option string) (max_pages : Z) (w : World)
    (st : CollectState) :
  appends_to dest (c_fs st)
    (c_fs (iter_corporate_list (collect_row dest) tok pref_code corporate_type
             limit exist_flg max_pages w st).1.2).
Proof.
  unfold iter_corporate_list.
  apply (iter_pages_rel (collect_row dest)
           (fun a b => appends_to dest (c_fs a) (c_fs b))).
  - intros s. apply appends_to_refl.
  - intros a b c. apply appends_to_trans.
  - intros s row s' e. apply collect_row_frame.
Qed.

Lemma region_requests {S : Type} (body : S -> json -> S * option exn)
    (tok pref_code corporate_type : string) (limit : Z)
    (exist_flg : option string) (max_pages : Z) (w : World) (s : S) :
  exists new,
    (iter_corporate_list body tok pref_code corporate_type limit exist_flg
       max_pages w s).1.1 = new ++ w
    /\ Forall (fun r => exists page,
                 1 <= page <= max_pages
                 /\ r = page_request tok pref_code corporate_type limit
                          exist_flg page) new
    /\ Z.of_nat (length new) <= Z.max 0 max_pages.
Proof.
  unfold iter_corporate_list.
  destruct (iter_pages_requests body tok pref_code corporate_type limit
              exist_flg (seqZ 1 max_pages) w s) as (k & Hk & _ & Hw).
  rewrite length_seqZ in Hk.
  exists (rev (map (page_request tok pref_code corporate_type limit exist_flg)
                 (take k (seqZ 1 max_pages)))).
  split; [exact Hw|]. split.
  - apply Forall_forall. intros r Hr.
    apply list_elem_of_In, in_rev, in_map_iff in Hr as (page & <- & Hin).
    exists page. split; [|reflexivity].
    apply list_elem_of_In in Hin.
    apply (subseteq_take k), elem_of_seqZ in Hin. lia.
  - rewrite length_rev, length_map, length_take, length_seqZ. lia.
Qed.

Lemma dump_loop_frame (tok : string) (a : DumpArgs) (prefs : list string)
    (w : World) (st : CollectState) :
  appends_to (dump_out a) (c_fs st) (c_fs (dump_loop tok a prefs w st).1.2).
Proof.
  revert w st. induction prefs as [|pref rest IH]; intros w st;
    [apply appends_to_refl|].
  cbn [dump_loop].
  pose proof (region_frame (dump_out a) tok pref (dump_corporate_type a)
                (dump_page_limit a) (exist_flag_param (dump_exist_flg a))
                (dump_page_ceiling a) w st) as H1.
  destruct (iter_corporate_list _ tok pref _ _ _ _ w st) as [[w1 st1] [x|]];
    cbn [fst snd] in *; [exact H1|].
  eapply appends_to_trans; [exact H1 | apply IH].
Qed.

Lemma dump_loop_requests (tok : string) (a : DumpArgs) (prefs : list string)
    (w : World) (st : CollectState) :
  exists new,
    (dump_loop tok a prefs w st).1.1 = new ++ w
    /\ Forall (fun r => exists pref page,
                 pref ∈ prefs /\ 1 <= page <= dump_page_ceiling a
                 /\ r = page_request tok pref (dump_corporate_type a)
                          (dump_page_limit a)
                          (exist_flag_param (dump_exist_flg a)) page) new
    /\ Z.of_nat (length new) <= dump_page_ceiling a * Z.of_nat (length prefs).
Proof.
  pose proof (dump_limits_clamped a) as [_ Hc].
  revert w st. induction prefs as [|pref rest IH]; intros w st.
  { exists []. cbn. split; [reflexivity|]. split; [constructor|lia]. }
  cbn [dump_loop].
  destruct (region_requests (collect_row (dump_out a)) tok pref
              (dump_corporate_type a) (dump_page_limit a)
              (exist_flag_param (dump_exist_flg a)) (dump_page_ceiling a) w st)
    as (new1 & Hw1 & Hall1 & Hlen1).
  assert (Hall1' : Forall (fun r => exists pref0 page,
                 pref0 ∈ pref :: rest /\ 1 <= page <= dump_page_ceiling a
                 /\ r = page_request tok pref0 (dump_corporate_type a)
                          (dump_page_limit a)
                          (exist_flag_param (dump_exist_flg a)) page) new1).
  { eapply Forall_impl; [exact Hall1|]. intros r (page & Hp & ->).
    exists pref, page. split; [left|auto]. }
  destruct (iter_corporate_list _ tok pref _ _ _ _ w st) as [[w1 st1] [x|]];
    cbn [fst snd length] in *.
  { exists new1. split; [exact Hw1|]. split; [exact Hall1'|]. lia. }
  destruct (IH w1 st1) as (new2 & Hw2 & Hall2 & Hlen2).
  exists (new2 ++ new1). rewrite length_app.
  split; [rewrite Hw2, Hw1, app_assoc; reflexivity|]. split; [|lia].
  apply Forall_app. split; [|exact Hall1'].
  eapply Forall_impl; [exact Hall2|]. intros r (pref0 & page & Hin & Hp & ->).
  exists pref0, page. split; [right; exact Hin|auto].
Qed.

(** X15. A dump run calls the list endpoint alone: every request is for a
    prefecture of its targets, with a page from 1 to 10, a page size from 1
    to 5000, the corporate type of the command line, and the activity
    filter only when it is [true] or [false]; and there are at most ten
    requests per target. *)
Theorem dump_requests (tok : string) (a : DumpArgs) (fs : gmap string csv)
    (w : World) :
  let w' := (dump tok a fs w).1.2 in
  w' = issued w w' ++ w
  /\ Forall (fun r => exists pref page limit,
               pref ∈ targets (dump_pref a)
               /\ 1 <= page <= 10 /\ 1 <= limit <= 5000
               /\ r = ListReq tok (dump_corporate_type a) pref limit page
                        (if String.eqb (dump_exist_flg a) "true"
                            || String.eqb (dump_exist_flg a) "false"
                         then Some (dump_exist_flg a) else None))
       (issued w w')
  /\ Z.of_nat (length (issued w w'))
     <= 10 * Z.of_nat (length (targets (dump_pref a))).
Proof.
  unfold dump.
  set (st0 := {| c_fs := fs; c_seen := _; c_new := 0 |}).
  destruct (dump_loop_requests tok a (targets (dump_pref a)) w st0)
    as (new & Hw & Hall & Hlen).
  destruct (dump_loop tok a (targets (dump_pref a)) w st0) as [[w' st] e].
  cbn [fst snd] in *. subst w'. rewrite issued_app.
  pose proof (dump_limits_clamped a) as [Hl Hc].
  split; [reflexivity|]. split.
  - eapply Forall_impl; [exact Hall|].
    intros r (pref & page & Hin & Hp & ->).
    exists pref, page, (dump_page_limit a).
    split; [exact Hin|]. split; [lia|]. split; [exact Hl|].
    unfold page_request, exist_flg_param, exist_flag_param. f_equal.
    destruct (String.eqb_spec (dump_exist_flg a) "any") as [->|_];
      reflexivity.
  - nia.
Qed.

Lemma pipeline_dump_loop_frame (tok : string) (a : PipelineArgs)
    (prefs : list string) (w : World) (fs : gmap string csv) :
  appends_to (pipeline_list_out a) fs (pipeline_dump_loop tok a prefs w fs).1.2.
Proof.
  revert w fs. induction prefs as [|pref rest IH]; intros w fs;
    [apply appends_to_refl|].
  cbn [pipeline_dump_loop].
  set (st0 := {| c_fs := fs; c_seen := _; c_new := 0 |}).
  pose proof (region_frame (pipeline_list_out a) tok pref
                (pipeline_corporate_type a) (pipeline_page_limit a)
                (exist_flag_param (pipeline_exist_flg a))
                (pipeline_page_ceiling a) w st0) as H1.
  destruct (iter_corporate_list _ tok pref _ _ _ _ w st0) as [[w1 st1] [x|]];
    cbn [fst snd] in *; [exact H1|].
  eapply appends_to_trans; [exact H1 | apply IH].
Qed.

Lemma pipeline_dump_loop_requests (tok : string) (a : PipelineArgs)
    (prefs : list string) (w : World) (fs : gmap string csv) :
  exists new,
    (pipeline_dump_loop tok a prefs w fs).1.1 = new ++ w
    /\ Forall (fun r => is_list_request r = true) new.
Proof.
  revert w fs. induction prefs as [|pref rest IH]; intros w fs.
  { exists []. split; [reflexivity|constructor]. }
  cbn [pipeline_dump_loop].
  set (st0 := {| c_fs := fs; c_seen := _; c_new := 0 |}).
  destruct (region_requests (collect_row (pipeline_list_out a)) tok pref
              (pipeline_corporate_type a) (pipeline_page_limit a)
              (exist_flag_param (pipeline_exist_flg a))
              (pipeline_page_ceiling a) w st0) as (new1 & Hw1 & Hall1 & _).
  assert (Hall1' : Forall (fun r => is_list_request r = true) new1).
  { eapply Forall_impl; [exact Hall1|]. intros r (page & _ & ->). reflexivity. }
  destruct (iter_corporate_list _ tok pref _ _ _ _ w st0) as [[w1 st1] [x|]];
    cbn [fst snd] in *.
  { exists new1. auto. }
  destruct (IH w1 (c_fs st1)) as (new2 & Hw2 & Hall2).
  exists (new2 ++ new1).
  split; [rewrite Hw2, Hw1, app_assoc; reflexivity|].
  apply Forall_app. auto.
Qed.

(** X16. In a pipeline run every list request comes before every detail
    request; and when the collection raises, the run ends with that
    exception, the enrichment is not started and no detail request is
    made. *)
Theorem pipeline_request_order (tok : string) (a : PipelineArgs)
    (fs : gmap string csv) (w : World) :
  (exists lists details,
      (pipeline tok a fs w).1.2 = details ++ lists ++ w
      /\ Forall (fun r => is_list_request r = true) lists
      /\ Forall (fun r => is_detail_request r = true) details)
  /\ (forall x,
        (pipeline_dump_loop tok a (targets (pipeline_pref a)) w fs).2 = Some x ->
        (pipeline tok a fs w).2 = Raise x
        /\ Forall (fun r => is_list_request r = true)
             (issued w (pipeline tok a fs w).1.2)).
Proof.
  unfold pipeline.
  destruct (pipeline_dump_loop_requests tok a (targets (pipeline_pref a)) w fs)
    as (lists & Hw1 & Hl).
  destruct (pipeline_dump_loop tok a (targets (pipeline_pref a)) w fs)
    as [[w1 fs1] e]. cbn [fst snd] in *. subst w1.
  destruct e as [x|].
  - cbn [fst snd]. split.
    + exists lists, []. split; [reflexivity|]. split; [exact Hl|constructor].
    + intros x0 [= <-]. rewrite issued_app. auto.
  - split; [|discriminate].
    rewrite _run_hydrate_loop.
    destruct (hydrate_loop tok (pipeline_enrich_out a)
                (input_rows fs1 (pipeline_list_out a))
                (hydrate_start (pipeline_resume a) (pipeline_enrich_out a) fs1
                   (lists ++ w))) as [st e] eqn:Hloop.
    destruct (hydrate_loop_counts tok _ _ _ _ _ Hloop)
      as (details & Hw2 & Hd & _).
    cbn [fst snd h_world hydrate_start] in *.
    exists lists, details. split; [exact Hw2|]. split; [exact Hl|].
    eapply Forall_impl; [exact Hd|]. intros r (row & _ & -> & _). reflexivity.
Qed.

Lemma appends_to_outputs (dest : string) (fs fs' : gmap string csv)
    (outs : list string) :
  dest ∈ outs -> appends_to dest fs fs' ->
  (forall p, p ∉ outs -> fs' !! p = fs !! p) /\ extends fs fs'.
Proof.
  intros Hin [Ho Hx]. split; [|exact Hx].
  intros p Hp. apply Ho. intros ->. contradiction.
Qed.

(** X17. Whatever the command line, the token and the service do, [main]
    only appends: every file that was there is still there with what it
    held in front, and a file that is not an output of the command is as it
    was. *)
Theorem main_only_appends (tok : option string) (argv : Argv)
    (fs : gmap string csv) (w : World) :
  (forall p, p ∉ argv_outputs argv -> (main tok argv fs w).1.1 !! p = fs !! p)
  /\ extends fs (main tok argv fs w).1.1.
Proof.
  unfold main.
  destruct argv as [| |cmd]; cbn [argv_outputs];
    try (split; [reflexivity | apply extends_refl]).
  destruct (tok_missing tok).
  { split; [reflexivity | apply extends_refl]. }
  destruct cmd as [a|a|a|]; cbn [outputs].
  - unfold dump.
    set (st0 := {| c_fs := fs; c_seen := _; c_new := 0 |}).
    pose proof (dump_loop_frame (default "" tok) a (targets (dump_pref a)) w st0)
      as Hf.
    destruct (dump_loop _ a _ w st0) as [[w' st] e]. cbn [fst snd] in *.
    apply (appends_to_outputs (dump_out a)); [left | exact Hf].
  - rewrite _run_hydrate_loop.
    destruct (hydrate_loop _ (hydrate_out a) _ _) as [st e] eqn:Hloop.
    destruct (hydrate_loop_files _ _ _ _ _ _ Hloop)
      as (_ & _ & _ & _ & Ho & Hx & _).
    cbn [fst snd h_fs hydrate_start] in *.
    apply (appends_to_outputs (hydrate_out a)); [left | split; assumption].
  - unfold pipeline.
    pose proof (pipeline_dump_loop_frame (default "" tok) a
                  (targets (pipeline_pref a)) w fs) as [Ho1 Hx1].
    destruct (pipeline_dump_loop _ a _ w fs) as [[w1 fs1] [x|]];
      cbn [fst snd] in *.
    { apply (appends_to_outputs (pipeline_list_out a));
        [left | split; assumption]. }
    rewrite _run_hydrate_loop.
    destruct (hydrate_loop _ (pipeline_enrich_out a) _ _) as [st e] eqn:Hloop.
    destruct (hydrate_loop_files _ _ _ _ _ _ Hloop)
      as (_ & _ & _ & _ & Ho2 & Hx2 & _).
    cbn [fst snd h_fs hydrate_start] in *. split.
    + intros p Hp. rewrite Ho2, Ho1; [reflexivity| |];
        intros ->; apply Hp; [left | right; left].
    + eapply extends_trans; eassumption.
  - split; [reflexivity | apply extends_refl].
Qed.

(** X18. For one region, with a page size and a ceiling inside the ranges
    the dump accepts, the collection of a pipeline run is the dump run of
    the same arguments: the same requests, the same files, and one raises
    when the other does. *)
Theorem pipeline_collects_as_dump (tok : string) (a : PipelineArgs)
    (fs : gmap string csv) (w : World) :
  String.eqb (pipeline_pref a) "all" = false ->
  1 <= pipeline_limit a <= 5000 -> 1 <= pipeline_max_pages a <= 10 ->
  (dump tok (dump_args_of a) fs w).1.1
  = (pipeline_dump_loop tok a (targets (pipeline_pref a)) w fs).1.2
  /\ (dump tok (dump_args_of a) fs w).1.2
     = (pipeline_dump_loop tok a (targets (pipeline_pref a)) w fs).1.1
  /\ (dump tok (dump_args_of a) fs w).2
     = match (pipeline_dump_loop tok a (targets (pipeline_pref a)) w fs).2 with
       | Some x => Raise x
       | None => Ok 0
       end.
Proof.
  intros Hpref Hl Hc. unfold dump, targets. cbn [dump_args_of dump_pref].
  rewrite Hpref. cbn [dump_loop pipeline_dump_loop].
  unfold dump_page_limit, dump_page_ceiling, pipeline_page_limit,
    pipeline_page_ceiling.
  cbn [dump_args_of dump_out dump_limit dump_resume dump_exist_flg
       dump_corporate_type dump_max_pages].
  replace (Z.min (Z.max 1 (pipeline_limit a)) 5000) with (pipeline_limit a)
    by lia.
  replace (Z.min (Z.max 1 (pipeline_max_pages a)) 10)
    with (pipeline_max_pages a) by lia.
  destruct (iter_corporate_list _ tok _ _ _ _ _ w _) as [[w1 st1] [x|]];
    auto.
Qed.

Lemma yield_items_two_fields (l acc : list json) :
  exists rows,
    (yield_items collect_body l acc).1 = acc ++ rows
    /\ Forall two_fields rows.
Proof.
  revert acc. induction l as [|it rest IH]; intros acc.
  { exists []. rewrite app_nil_r. split; [reflexivity|constructor]. }
  cbn [yield_items].
  destruct (py_get it "corporate_number") as [c|x];
    [|exists []; rewrite app_nil_r; split; [reflexivity|constructor]].
  destruct (py_get it "name") as [n|x];
    [|exists []; rewrite app_nil_r; split; [reflexivity|constructor]].
  cbn [collect_body].
  destruct (IH (acc ++ [JObj [("corporate_number", c); ("name", n)]]))
    as (rows & Hy & Hall).
  exists (JObj [("corporate_number", c); ("name", n)] :: rows).
  split; [rewrite Hy, <- app_assoc; reflexivity|].
  constructor; [exists c, n; reflexivity | exact Hall].
Qed.

Lemma iter_pages_two_fields (tok pref_code corporate_type : string)
    (limit : Z) (exist_flg : option string) (pages : list Z) (w : World)
    (acc : list json) :
  exists rows,
    (iter_pages collect_body tok pref_code corporate_type limit exist_flg
       pages w acc).1.2 = acc ++ rows
    /\ Forall two_fields rows.
Proof.
  revert w acc. induction pages as [|page rest IH]; intros w acc.
  { exists []. rewrite app_nil_r. split; [reflexivity|constructor]. }
  assert (Hnone : exists rows : list json,
            acc = acc ++ rows /\ Forall two_fields rows).
  { exists []. rewrite app_nil_r. split; [reflexivity|constructor]. }
  rewrite iter_pages_cons.
  destruct (fetch_page w _) as [items|x]; [|exact Hnone].
  destruct (negb (truthy items)); [exact Hnone|].
  destruct items; try exact Hnone.
  destruct (yield_items_two_fields l acc) as (r1 & Hy & Hall1).
  destruct (yield_items collect_body l acc) as [acc1 [x|]]; cbn [fst] in Hy;
    [exists r1; auto|].
  destruct (Z.ltb (Z.of_nat (length l)) limit); [exists r1; auto|].
  destruct (IH (page_request tok pref_code corporate_type limit exist_flg page
                  :: w) acc1) as (r2 & Hi & Hall2).
  exists (r1 ++ r2). rewrite Hi, Hy, <- app_assoc.
  split; [reflexivity | apply Forall_app; auto].
Qed.

(** X19. Whatever the items of the service hold, every row the collector
    yields is a dict of exactly the two keys [corporate_number] and
    [name]. *)
Theorem collector_yields_two_fields (tok pref_code corporate_type : string)
    (limit : Z) (exist_flg : option string) (max_pages : Z) (w : World) :
  Forall two_fields
    (iter_corporate_list collect_body tok pref_code corporate_type limit
       exist_flg max_pages w []).1.2.
Proof.
  unfold iter_corporate_list.
  destruct (iter_pages_two_fields tok pref_code corporate_type limit exist_flg
              (seqZ 1 max_pages) w []) as (rows & -> & Hall).
  exact Hall.
Qed.

Lemma hydrate_loop_all_skipped (tok out : string)
    (rows : list (list string * list string)) (st : HydrateState) :
  Forall (fun row => row_cno row = "" \/ row_cno row ∈ h_processed st) rows ->
  hydrate_loop tok out rows st = (st, None).
Proof.
  induction 1 as [|row rest Hrow _ IH]; [reflexivity|].
  cbn [hydrate_loop]. rewrite hydrate_row_skip; [exact IH|].
  destruct Hrow as [Hempty | Hin]; [left | right; exact Hin].
  apply str_empty_true. exact Hempty.
Qed.

(** X20. When the output file already holds every non-empty identifier of
    the input, an enrichment run with resume does nothing: no request, no
    change to any file, and 0 rows added. *)
Theorem resume_nothing_left (tok infile out : string) (fs : gmap string csv)
    (w : World) :
  Forall (fun row => row_cno row = ""
                     \/ row_cno row ∈ read_existing_numbers fs out)
    (input_rows fs infile) ->
  (_run_hydrate tok infile out true fs w).2 = Ok 0
  /\ h_world (_run_hydrate tok infile out true fs w).1 = w
  /\ h_fs (_run_hydrate tok infile out true fs w).1 = fs.
Proof.
  intros Hall. rewrite _run_hydrate_loop.
  rewrite (hydrate_loop_all_skipped tok out (input_rows fs infile)
             (hydrate_start true out fs w) Hall).
  repeat split.
Qed.

End MoreProperties.

(** ** Closed examples *)

Lemma not_NoDup_twice {A : Type} (x : A) (l : list A) : ~ NoDup (x :: x :: l).
Proof.
  intros Hnd. apply NoDup_cons in Hnd as [Hnot _]. apply Hnot. left.
Qed.

(** C1, as stated, fails.  A pipeline run without resume over all regions,
    against a service that lists the corporation 1000 under every region,
    appends it 47 times; and two dump runs with resume on a list file that
    exists but is empty leave every identifier twice in the file. *)
Lemma collection_repeats_identifier :
  (pipeline_dump_loop (H := env_of srv_one_item) "t"
     (sample_pipeline "all" 5000 10 false) (targets "all") [] ∅).1.2
    !! "list.csv"
  = grow LIST_FIELDS None (repeat ["1000"; "A"] 47)
  /\ ~ NoDup (map record_id (repeat ["1000"; "A"] 47))
  /\ (dump (H := env_of srv_two_items) "t" (sample_dump true)
        (dump (H := env_of srv_two_items) "t" (sample_dump true)
           sample_fs_empty_list []).1.1
        (dump (H := env_of srv_two_items) "t" (sample_dump true)
           sample_fs_empty_list []).1.2).1.1 !! "list.csv"
     = Some [["1000"; "A"]; ["2000"; "B"]; ["1000"; "A"]; ["2000"; "B"]]
  /\ ~ NoDup (map (hd "") [["1000"; "A"]; ["2000"; "B"]; ["1000"; "A"]; ["2000"; "B"]]).
Proof.
  split; [vm_compute; reflexivity|]. split; [apply not_NoDup_twice|].
  split; [vm_compute; reflexivity|].
  cbn [map hd]. intros Hnd.
  apply NoDup_cons in Hnd as [Hnot _]. apply Hnot. right. left.
Qed.

(** C1, an instance: two dump runs with resume, the first without a list
    file, the second on the file system the first has left. *)
Lemma collection_appends_once_witness :
  dump_resume (sample_dump true) = true
  /\ (∅ : gmap string csv) !! "list.csv" = None
  /\ NoDup (file_ids
              ((dump (H := env_of srv_two_items) "t" (sample_dump true)
                  (dump (H := env_of srv_two_items) "t" (sample_dump true)
                     ∅ []).1.1 []).1.1 !! "list.csv")).
Proof.
  split; [reflexivity|]. split; [reflexivity|].
  destruct (collection_appends_once (H := env_of srv_two_items) "t")
    as (_ & _ & _ & _ & _ & Htwice & _).
  exact (Htwice (sample_dump true) ∅ [] _ [] eq_refl eq_refl eq_refl).
Defined.



(** C2, an instance: 1000 is in the output file, so the run asks for 2000
    alone. *)
Lemma resume_skips_enriched_witness :
  "1000" ∈ id_column (sample_fs_resumed !! "out.csv")
  /\ Forall (fun r => exists c, r = DetailReq "t" c /\ c <> "1000"
                                /\ c <> strip "1000")
       (issued []
          (h_world (_run_hydrate (H := env_of srv_flaky) "t" "list.csv"
                      "out.csv" true sample_fs_resumed []).1)).
Proof.
  assert (HX : "1000" ∈ id_column (sample_fs_resumed !! "out.csv")).
  { apply list_elem_of_In. vm_compute. left. reflexivity. }
  split; [exact HX|].
  exact (proj2 (resume_skips_enriched (H := env_of srv_flaky) "t" "list.csv"
                  "out.csv" sample_fs_resumed [] "1000" HX)).
Defined.

(** C3, an instance: the fetch for 1000 times out and the loop goes on with
    2000. *)
Lemma fetch_failure_isolated_witness :
  let st := hydrate_start false "out.csv" ∅ [] in
  let row := (LIST_FIELDS, ["1000"; "A"]) in
  let post := [(LIST_FIELDS, ["2000"; "B"])] in
  hydrate_row (H := env_of srv_flaky) "t" "out.csv" st row
  = (after_fetch_error "t" st (row_cno row), None)
  /\ h_errors (after_fetch_error "t" st (row_cno row)) = h_errors st + 1
  /\ h_fs (after_fetch_error "t" st (row_cno row)) = h_fs st
  /\ hydrate_loop (H := env_of srv_flaky) "t" "out.csv" ([] ++ row :: post) st
     = hydrate_loop (H := env_of srv_flaky) "t" "out.csv" post
         (after_fetch_error "t" st (row_cno row)).
Proof.
  cbn zeta.
  apply (fetch_failure_isolated (H := env_of srv_flaky) "t" "out.csv" []
           [(LIST_FIELDS, ["2000"; "B"])] (LIST_FIELDS, ["1000"; "A"])
           (hydrate_start false "out.csv" ∅ [])
           (hydrate_start false "out.csv" ∅ [])
           Timeout).
  - reflexivity.
  - reflexivity.
  - apply not_elem_of_empty.
  - reflexivity.
Defined.

(** C7, an instance: a 500 answer to a detail lookup. *)
Lemma http_status_handling_witness :
  fetch_basic_with_session (H := env_of srv_down) "t" [] "1000"
  = ([DetailReq "t" "1000"],
     Raise (RuntimeError "HTTP 500: Internal Server Error")).
Proof.
  destruct (http_status_handling (H := env_of srv_down) "t" []
              (DetailReq "t" "1000") "1000") as (_ & _ & Hother).
  destruct (Hother 500 "Internal Server Error" None eq_refl
              ltac:(lia) ltac:(lia) ltac:(lia)) as [Hraise _].
  exact Hraise.
Defined.

(** C6, an instance: a record that has a name and nothing else. *)
Lemma append_rows_schema_witness :
  csv_row (H := env_of srv_down) BASIC_FIELDS [("name", JStr "A")] !! 1%nat
  = Some "A".
Proof.
  destruct (append_rows_schema (H := env_of srv_down) "out.csv" []
              BASIC_FIELDS ∅) as (_ & _ & _ & Hrow & _).
  exact (proj2 (Hrow [("name", JStr "A")]) 1%nat "name" eq_refl).
Defined.

(** C8, as stated, fails, in two ways.  The token is there and the command
    line does not parse: the program ends with exit status 2.  The token is
    there and the service answers 500 to every try: the retries of
    [_get_json] give up with a [RetryError], which nothing catches, and the
    dump ends with exit status 1. *)
Lemma dump_failure_exit_status :
  tok_missing (Some "t") = false
  /\ exit_status (main (H := env_of srv_down) (Some "t") Rejected ∅ []).2 = 2
  /\ (main (H := env_of srv_down) (Some "t")
        (Accepted (CmdDump (sample_dump false))) ∅ []).2
     = Raises RetryError
  /\ exit_status
       (main (H := env_of srv_down) (Some "t")
          (Accepted (CmdDump (sample_dump false))) ∅ []).2 = 1.
Proof.
  split; [reflexivity|]. split; [reflexivity|].
  split; vm_compute; reflexivity.
Qed.

(** C8, an instance: a dump without the token. *)
Lemma exit_status_law_witness :
  tok_missing None = true
  /\ main (H := env_of srv_down) None (Accepted (CmdDump (sample_dump false)))
       ∅ []
     = (∅, [], Returns 2).
Proof.
  split; [reflexivity|].
  destruct (exit_status_law (H := env_of srv_down) None
              (Accepted (CmdDump (sample_dump false))) ∅ [])
    as (_ & _ & Hmissing & _).
  exact (Hmissing (CmdDump (sample_dump false)) eq_refl eq_refl).
Defined.

(** C9. The pipeline branch hands the command-line values to the collector
    as they are: with [--limit 0 --max-pages 12] the page size is 0, and
    against a service that never sends an empty page the region is asked
    for twelve pages. *)
Lemma pipeline_passes_raw_limits :
  pipeline_page_limit (sample_pipeline "13" 0 12 false) = 0
  /\ pipeline_page_ceiling (sample_pipeline "13" 0 12 false) = 12
  /\ rev (pipeline_dump_loop (H := env_of srv_one_item) "t"
            (sample_pipeline "13" 0 12 false) (targets "13") [] ∅).1.1
     = map (page_request "t" "13" "301" 0 None) (seqZ 1 12).
Proof. split; [reflexivity|]. split; [reflexivity|]. vm_compute. reflexivity. Qed.

(** C10, as stated, fails, in two ways.  The list names 1000 twice, its
    first fetch times out and its second succeeds: the later run with resume
    does not fetch 1000 again.  And a run without resume, on an output file
    that holds 1000 already, fails to fetch 1000 while the service is down:
    the later run with resume asks for 2000 alone. *)
Lemma failed_fetch_not_retried :
  let run1 :=
    _run_hydrate (H := env_of srv_flaky) "t" "list.csv" "out.csv" true
      sample_fs_twice [] in
  let run2 :=
    _run_hydrate (H := env_of srv_flaky) "t" "list.csv" "out.csv" true
      (h_fs run1.1) (h_world run1.1) in
  let down1 :=
    _run_hydrate (H := env_of srv_down) "t" "list.csv" "out.csv" false
      sample_fs_resumed [] in
  let down2 :=
    _run_hydrate (H := env_of srv_flaky) "t" "list.csv" "out.csv" true
      (h_fs down1.1) (h_world down1.1) in
  ((fetch_basic_with_session (H := env_of srv_flaky) "t" [] "1000").2
   = Raise Timeout
   /\ h_errors run1.1 = 1 /\ run1.2 = Ok 1
   /\ run2.2 = Ok 0
   /\ issued (h_world run1.1) (h_world run2.1) = [])
  /\ ((fetch_basic_with_session (H := env_of srv_down) "t" [] "1000").2
      = Raise (RuntimeError "HTTP 500: Internal Server Error")
      /\ h_errors down1.1 = 2 /\ down1.2 = Ok 0
      /\ down2.2 = Ok 0
      /\ issued (h_world down1.1) (h_world down2.1) = [DetailReq "t" "2000"]).
Proof. cbn zeta. repeat split; vm_compute; reflexivity. Qed.

(** C10, an instance: 2000 is not in the output file and the run with resume
    fetches it. *)
Lemma resume_set_marks_appended_witness :
  DetailReq "t" "2000"
  ∈ issued []
      (h_world (_run_hydrate (H := env_of srv_flaky) "t" "list.csv" "out.csv"
                  true sample_fs_resumed []).1).
Proof.
  destruct (resume_set_marks_appended (H := env_of srv_flaky) "t" "out.csv")
    as (_ & _ & Hlater).
  apply (Hlater "list.csv" sample_fs_resumed []
           [LIST_FIELDS; ["1000"; "A"]; ["2000"; "B"]]
           (LIST_FIELDS, ["2000"; "B"])
           (_run_hydrate (H := env_of srv_flaky) "t" "list.csv" "out.csv"
              true sample_fs_resumed []).1 0).
  - vm_compute. reflexivity.
  - apply list_elem_of_In. vm_compute. right. left. reflexivity.
  - vm_compute. discriminate.
  - intros Hin. apply list_elem_of_In in Hin. vm_compute in Hin.
    destruct Hin as [Heq | []]. discriminate Heq.
  - vm_compute. reflexivity.
Defined.

(** X2, an instance: three seconds and a half print as three seconds do. *)
Lemma fmt_hms_inj_witness :
  _fmt_hms (Qmake 7 2) = _fmt_hms (Qmake 3 1)
  /\ py_int (Qmake 7 2) = py_int (Qmake 3 1).
Proof.
  assert (Hsame : _fmt_hms (Qmake 7 2) = _fmt_hms (Qmake 3 1))
    by (vm_compute; reflexivity).
  split; [exact Hsame | exact (fmt_hms_inj _ _ Hsame)].
Defined.

(** X6, an instance: a list file without its header gives no resume set. *)
Lemma read_existing_numbers_no_column_witness :
  read_existing_numbers sample_fs_headerless "list.csv" = ∅.
Proof.
  apply (read_existing_numbers_no_column sample_fs_headerless "list.csv"
           [["1000"; "A"]; ["2000"; "B"]]).
  - reflexivity.
  - intros names [= <-]. apply (bool_decide_unpack _). vm_compute. exact I.
Defined.

(** X7, an instance: the first record written to a new list file is read
    back stripped. *)
Lemma append_then_scan_witness :
  "corporate_number" ∈ LIST_FIELDS
  /\ (∅ : gmap string csv) !! "list.csv" = None
  /\ read_existing_numbers
       (append_rows (H := env_of srv_down) "list.csv" (map JObj [sample_record])
          LIST_FIELDS ∅).1 "list.csv"
     = list_to_set ["1000"].
Proof.
  assert (Hk : "corporate_number" ∈ LIST_FIELDS) by left.
  split; [exact Hk|]. split; [reflexivity|].
  exact (proj1 (append_then_scan (H := env_of srv_down) "list.csv"
                  [sample_record] [] LIST_FIELDS ∅ Hk eq_refl)).
Defined.

(** X9, an instance: a number among the rows. *)
Lemma append_rows_stops_at_non_dict_witness :
  is_obj (JNum 3) = false
  /\ LIST_FIELDS <> []
  /\ append_rows (H := env_of srv_down) "list.csv"
       (map JObj [sample_record] ++ JNum 3 :: [JObj sample_record])
       LIST_FIELDS ∅
     = ((append_rows (H := env_of srv_down) "list.csv"
           (map JObj [sample_record]) LIST_FIELDS ∅).1, Some AttributeError).
Proof.
  assert (Hh : LIST_FIELDS <> []) by discriminate.
  split; [reflexivity|]. split; [exact Hh|].
  exact (proj1 (append_rows_stops_at_non_dict (H := env_of srv_down)
                  "list.csv" [sample_record] (JNum 3) [JObj sample_record]
                  LIST_FIELDS ∅ eq_refl) Hh).
Defined.

(** X12, an instance: a list that names 1000 twice, enriched into another
    file. *)
Lemma run_hydrate_requests_witness :
  "list.csv" <> "out.csv"
  /\ (length
        (issued []
           (h_world
              (_run_hydrate (H := env_of srv_flaky) "t" "list.csv" "out.csv"
                 false sample_fs_twice []).1))
      <= length (input_rows sample_fs_twice "list.csv"))%nat.
Proof.
  assert (Hne : "list.csv" <> "out.csv") by discriminate.
  split; [exact Hne|].
  exact (proj2 (proj2 (run_hydrate_requests (H := env_of srv_flaky) "t"
                         "list.csv" "out.csv" false sample_fs_twice [] Hne))).
Defined.

(** X18, an instance: one prefecture, the default page size and ceiling. *)
Lemma pipeline_collects_as_dump_witness :
  (dump (H := env_of srv_two_items) "t"
     (dump_args_of (sample_pipeline "13" 5000 10 true)) ∅ []).1.1
  = (pipeline_dump_loop (H := env_of srv_two_items) "t"
       (sample_pipeline "13" 5000 10 true) (targets "13") [] ∅).1.2.
Proof.
  apply (pipeline_collects_as_dump (H := env_of srv_two_items) "t"
           (sample_pipeline "13" 5000 10 true) ∅ []).
  - reflexivity.
  - cbn. lia.
  - cbn. lia.
Defined.

(** X20, an instance: the output file holds an identifier that the input
    names twice. *)
Lemma resume_nothing_left_witness :
  (_run_hydrate (H := env_of srv_down) "t" "list.csv" "out.csv" true
     (<[ "out.csv" := [BASIC_FIELDS; ["1000"] ] ]> sample_fs_twice) []).2
  = Ok 0.
Proof.
  apply (resume_nothing_left (H := env_of srv_down) "t" "list.csv" "out.csv"
           (<[ "out.csv" := [BASIC_FIELDS; ["1000"] ] ]> sample_fs_twice) []).
  assert (Hin : "1000"
                ∈ read_existing_numbers
                    (<[ "out.csv" := [BASIC_FIELDS; ["1000"] ] ]> sample_fs_twice)
                    "out.csv").
  { apply (bool_decide_unpack _). vm_compute. exact I. }
  assert (Hrows : input_rows
                    (<[ "out.csv" := [BASIC_FIELDS; ["1000"] ] ]> sample_fs_twice)
                    "list.csv"
                  = [(LIST_FIELDS, ["1000"; "A"]); (LIST_FIELDS, ["1000"; "A"])])
    by (vm_compute; reflexivity).
  rewrite Hrows.
  repeat constructor; right; exact Hin.
Defined.
